(** * get_events_artists.py: a shallow embedding and its verified properties

    The script crawls a Last.fm user's event listing pages, collects the
    lineup URL of every event, scrapes the artists of each lineup page and
    prints them sorted, optionally grouped under letter headings.

    Layout of the development:
    - [PyStr]: Python's [str] as a list of code points, with the built-ins
      the script calls (indexing, slicing, [startswith], [endswith], [in],
      [split], [strip], [join], integer formatting) and the interface
      [Unicode] for the case tables behind [lower], [upper], [isalpha];
    - [Latin1]: the case tables of U+0000..U+00FF, an instance of [Unicode];
    - URL canonicalisation, the BeautifulSoup tree and its searches;
    - the effectful functions in a state-and-exception monad [M] over the
      history of the run, which records every request, sleep and printed
      line, with the network, the file system, [urljoin] and the iteration
      order of sets supplied by an environment [Env];
    - [Sample]: three small environments to run the script on;
    - the theorems, one section per function. *)

From Stdlib Require Import ZArith NArith List String Ascii QArith Lia.
From Stdlib Require Import Permutation Sorted DecimalString.
From stdpp Require Import base gmap sets list strings.

Close Scope Q_scope.
Open Scope nat_scope.

Set Warnings "-clear-no-such-hyp,-register-all".

(** ** Python strings *)

(** A Python [str] is a sequence of Unicode code points. *)
Abbreviation str := (list N).

(** An ASCII literal of the source, as a [str]. *)
Definition py (s : string) : str := N_of_ascii <$> list_ascii_of_string s.

(** The line feed, written [\n] in the source's literals. *)
Definition LF : str := [10%N].

(** The carriage return, written [\r]. *)
Definition CR : str := [13%N].

(** The exceptions the script can meet. *)
Inductive exn :=
| IndexError
| KeyError
| ValueError
| SystemExit (code : Z).

(** The outcome of a Python expression: a value, or a raised exception. *)
Inductive result (A : Type) :=
| Ok (a : A)
| Raise (e : exn).
Arguments Ok {A} a.
Arguments Raise {A} e.

#[export] Instance result_ret : MRet result := fun A a => Ok a.
#[export] Instance result_bind : MBind result :=
  fun A B f r => match r with Ok a => f a | Raise e => Raise e end.

Module PyStr.

(** [s[i]] for [i >= 0]: a one-character string, or [IndexError]. *)
Definition index (s : str) (i : nat) : result str :=
  match s !! i with
  | Some c => Ok [c]
  | None => Raise IndexError
  end.

(** [s[i:]] for [i >= 0]; a slice never raises. *)
Definition slice_from (s : str) (i : nat) : str := drop i s.

(** [s[:-k]] for [k > 0]. *)
Definition slice_to_neg (s : str) (k : nat) : str := take (length s - k) s.

(** [s.startswith(p)]. *)
Definition startswith (s p : str) : bool := bool_decide (p `prefix_of` s).

(** [s.endswith(p)]. *)
Definition endswith (s p : str) : bool := bool_decide (p `suffix_of` s).

(** [sub in s]: [sub] occurs in [s] as a contiguous substring. *)
Fixpoint contains (s sub : str) : bool :=
  startswith s sub ||
  match s with
  | [] => false
  | _ :: s' => contains s' sub
  end.

(** [s.split(c)] for a one-character separator [c]: at least one piece. *)
Fixpoint split (c : N) (s : str) : list str :=
  match s with
  | [] => [[]]
  | x :: s' =>
      if (x =? c)%N then [] :: split c s'
      else match split c s' with
           | p :: ps => (x :: p) :: ps
           | [] => [[x]]
           end
  end.

(** [sep.join(l)]. *)
Fixpoint join (sep : str) (l : list str) : str :=
  match l with
  | [] => []
  | [x] => x
  | x :: l' => x ++ sep ++ join sep l'
  end.

(** [s * n]. *)
Fixpoint repeat_str (s : str) (n : nat) : str :=
  match n with
  | O => []
  | S n' => s ++ repeat_str s n'
  end.

(** [str(n)] for a natural number and for an integer. *)
Definition of_nat (n : nat) : str := py (NilZero.string_of_uint (Nat.to_uint n)).
Definition of_Z (z : Z) : str := py (NilZero.string_of_int (Z.to_int z)).

(** The code points [str.strip()] removes: those with [isspace()] true. *)
Definition isspace (c : N) : bool :=
  ((9 <=? c) && (c <=? 13) || (28 <=? c) && (c <=? 32) || (c =? 133) || (c =? 160)
   || (c =? 5760) || (8192 <=? c) && (c <=? 8202) || (c =? 8232) || (c =? 8233)
   || (c =? 8239) || (c =? 8287) || (c =? 12288))%N.

Fixpoint lstrip (s : str) : str :=
  match s with
  | c :: s' => if isspace c then lstrip s' else s
  | [] => []
  end.

(** [s.strip()]. *)
Definition strip (s : str) : str := reverse (lstrip (reverse (lstrip s))).

(** [s < t]: code point by code point, a proper prefix first. *)
Fixpoint ltb (s t : str) : bool :=
  match s, t with
  | _, [] => false
  | [], _ :: _ => true
  | a :: s', b :: t' =>
      if (a <? b)%N then true
      else if (a =? b)%N then ltb s' t'
      else false
  end.

End PyStr.

(** The Unicode tables behind the case methods of [str].  [str_lower] and
    [str_upper] work on whole strings: one code point may map to several
    (the upper case of U+00DF is two letters), and [str_isalpha] is false
    on the empty string. *)
Class Unicode := {
  str_lower : str -> str;
  str_upper : str -> str;
  str_isalpha : str -> bool;
}.

(** ** The tables of Basic Latin and the Latin-1 Supplement *)
Module Latin1.

Definition lower_cp (c : N) : N :=
  if ((65 <=? c) && (c <=? 90) || (192 <=? c) && (c <=? 214)
      || (216 <=? c) && (c <=? 222))%N
  then (c + 32)%N else c.

Definition upper_cp (c : N) : str :=
  if ((97 <=? c) && (c <=? 122) || (224 <=? c) && (c <=? 246)
      || (248 <=? c) && (c <=? 254))%N
  then [(c - 32)%N]
  else if (c =? 223)%N then [83; 83]%N
  else if (c =? 255)%N then [376%N]
  else if (c =? 181)%N then [924%N]
  else [c].

(** Letters of U+0000..U+00FF, and the two upper-case images outside it. *)
Definition isalpha_cp (c : N) : bool :=
  ((65 <=? c) && (c <=? 90) || (97 <=? c) && (c <=? 122)
   || (c =? 170) || (c =? 181) || (c =? 186)
   || (192 <=? c) && (c <=? 214) || (216 <=? c) && (c <=? 246)
   || (248 <=? c) && (c <=? 255) || (c =? 376) || (c =? 924))%N.

Definition lower (s : str) : str := lower_cp <$> s.
Definition upper (s : str) : str := s ≫= upper_cp.
Definition isalpha (s : str) : bool :=
  match s with
  | [] => false
  | _ => forallb isalpha_cp s
  end.

Definition tables : Unicode :=
  {| str_lower := lower; str_upper := upper; str_isalpha := isalpha |}.

End Latin1.

(** ** URLs *)

Definition BASE_URL : str := py "https://www.last.fm".

(** The trailing paths removed from an event link, in the order the source
    tries them. *)
Definition suffixes : list str :=
  [py "/attendance"; py "/going"; py "/interested"; py "/lineup"].

(** [for suffix in suffixes: if full_url.endswith(suffix): full_url =
    full_url[:-len(suffix)]]: one pass, each suffix tried once. *)
Definition strip_suffixes (full_url : str) : str :=
  foldl (fun u suffix =>
           if PyStr.endswith u suffix then PyStr.slice_to_neg u (length suffix)
           else u)
        full_url suffixes.

(** [full_url.split('?')[0]]. *)
Definition drop_query (full_url : str) : str :=
  match PyStr.split 63%N full_url with
  | piece :: _ => piece
  | [] => []
  end.

(** The clean-up of an absolute event URL: query string removed, known
    trailing path removed, [/lineup] appended. *)
Definition canonical_url (full_url : str) : str :=
  let full_url := drop_query full_url in
  let full_url := strip_suffixes full_url in
  full_url ++ py "/lineup".

(** [if x not in l: l.append(x)]. *)
Definition append_new (l : list str) (x : str) : list str :=
  if bool_decide (x ∈ l) then l else l ++ [x].

(** ** The parsed page *)

(** The two attributes the script reads.  [class] is multi-valued: the
    parser stores it as the list of its space-separated tokens. *)
Record attrs := {
  attr_href : option str;
  attr_class : option (list str);
}.

(** A BeautifulSoup tree.  The soup object itself is the root tag. *)
Inductive node :=
| Tag (name : str) (a : attrs) (children : list node)
| NavigableString (text : str).

(** All nodes below [n], in document order. *)
Fixpoint descendants (n : node) : list node :=
  match n with
  | Tag _ _ children => children ≫= (fun c => c :: descendants c)
  | NavigableString _ => []
  end.

Definition tag_name_in (names : list str) (n : node) : bool :=
  match n with
  | Tag name _ _ => bool_decide (name ∈ names)
  | NavigableString _ => false
  end.

(** The [class_] filter: a test matches a tag when it holds of one of the
    class tokens, or of the tokens joined by spaces; a tag with no class
    attribute matches neither a string nor the script's lambda. *)
Definition class_matches (test : str -> bool) (n : node) : bool :=
  match n with
  | Tag _ a _ =>
      match attr_class a with
      | Some tokens => existsb test tokens || test (PyStr.join (py " ") tokens)
      | None => false
      end
  | NavigableString _ => false
  end.

(** The [href=True] filter. *)
Definition has_href (n : node) : bool :=
  match n with
  | Tag _ a _ => bool_decide (is_Some (attr_href a))
  | NavigableString _ => false
  end.

(** [n.find_all(names, class_=test, href=True)], each filter optional. *)
Definition find_all (names : list str) (class_ : option (str -> bool))
  (href : bool) (n : node) : list node :=
  filter (fun d => tag_name_in names d
                   && from_option (fun test => class_matches test d) true class_
                   && (negb href || has_href d) = true)
         (descendants n).

(** [n.find(names, class_=test)]: the first match, or [None]. *)
Definition find (names : list str) (class_ : option (str -> bool)) (n : node)
  : option node :=
  head (find_all names class_ false n).

(** [link['href']]. *)
Definition get_href (n : node) : result str :=
  match n with
  | Tag _ a _ =>
      match attr_href a with
      | Some h => Ok h
      | None => Raise KeyError
      end
  | NavigableString _ => Raise KeyError
  end.

(** [tag.get('class', [])]. *)
Definition get_class (n : node) : list str :=
  match n with
  | Tag _ a _ => default [] (attr_class a)
  | NavigableString _ => []
  end.

Definition node_text (n : node) : option str :=
  match n with
  | NavigableString text => Some text
  | Tag _ _ _ => None
  end.

Definition nonempty (s : str) : bool := negb (bool_decide (s = [])).

(** [n.get_text(strip=True)]: every string below [n] is stripped, the empty
    ones are skipped, the rest are concatenated. *)
Definition get_text (n : node) : str :=
  concat (filter (fun s => nonempty s = true)
                 (PyStr.strip <$> omap node_text (descendants n))).

(** ** The world *)

(** What a run does to the outside, in order. *)
Inductive event :=
| Get (url : str)
| Sleep (seconds : Q)
| Stdout (text : str)
| Stderr (text : str)
| WriteFile (path content : str).

(** What [requests.get] gives back: a response with its status and parsed
    body, or a [RequestException] with its message and its [repr]. *)
Inductive reply :=
| Response (status_code : Z) (content : node)
| RequestException (e repr : str).

(** Everything the run depends on and does not define: the network and the
    file system, which may answer by the history so far; [urljoin], which
    raises [ValueError] on some inputs; the order in which a [set]
    iterates. *)
Class Env := {
  requests_get : list event -> str -> reply;
  open_write : list event -> str -> option str;
  urljoin : str -> str -> result str;
  set_iter : gset str -> list str;
  set_iter_perm : forall s, set_iter s ≡ₚ elements s;
}.

(** A computation: from the history so far to a value or an exception, and
    the history extended. *)
Definition M (A : Type) : Type := list event -> result A * list event.

#[export] Instance M_ret : MRet M := fun A a t => (Ok a, t).
#[export] Instance M_bind : MBind M :=
  fun A B f m t =>
    match m t with
    | (Ok a, t') => f a t'
    | (Raise e, t') => (Raise e, t')
    end.

Definition emit (e : event) : M unit := fun t => (Ok (), t ++ [e]).
Definition lift {A} (r : result A) : M A := fun t => (r, t).
Definition when (b : bool) (m : M unit) : M unit := if b then m else mret ().

(** [print(s)], [print(s, end=e)], [print(s, file=sys.stderr)]. *)
Definition print (s : str) : M unit := emit (Stdout (s ++ LF)).
Definition print_end (s e : str) : M unit := emit (Stdout (s ++ e)).
Definition eprint (s : str) : M unit := emit (Stderr (s ++ LF)).

(** [time.sleep(seconds)]. *)
Definition sleep (seconds : Q) : M unit := emit (Sleep seconds).

(** [sys.exit(code)]. *)
Definition sys_exit {A} (code : Z) : M A := lift (Raise (SystemExit code)).

(** [range(a, b)] over the integers. *)
Definition range (a b : Z) : list Z :=
  (fun i => (a + Z.of_nat i)%Z) <$> seq 0 (Z.to_nat (b - a)).

Definition max_retries : nat := 3.

(** ** Sorting *)

(** [sorted(l, key=key)]: Python's sort is stable and compares keys with
    [<] only.  A stable sort has one possible result, computed here by
    insertion from the right. *)
Fixpoint insert_sorted {A} (key : A -> str) (x : A) (l : list A) : list A :=
  match l with
  | [] => [x]
  | y :: l' =>
      if PyStr.ltb (key y) (key x) then y :: insert_sorted key x l'
      else x :: y :: l'
  end.

Definition sorted {A} (l : list A) (key : A -> str) : list A :=
  foldr (insert_sorted key) [] l.

(** ** The script *)

Section Script.
Context {U : Unicode} {E : Env}.

(** [requests.get(url, headers=...)]: the reply is the environment's, and
    the request is recorded. *)
Definition http_get (url : str) : M reply :=
  fun t => (Ok (requests_get t url), t ++ [Get url]).

(** *** [get_event_urls_from_page] *)

(** [lambda x: x and ('event' in x.lower() or 'card' in x.lower())]. *)
Definition is_card_class (x : str) : bool :=
  nonempty x
  && (PyStr.contains (str_lower x) (py "event")
      || PyStr.contains (str_lower x) (py "card")).

(** The candidate links of a listing page: the links inside every card,
    then every link of the page. *)
Definition event_links_of (soup : node) : list node :=
  let event_cards :=
    find_all [py "div"; py "li"; py "article"] (Some is_card_class) false soup in
  let event_links := event_cards ≫= find_all [py "a"] None true in
  let all_links := find_all [py "a"] None true soup in
  event_links ++ all_links.

(** [for link in event_links: ...], threading the list [event_urls]. *)
Fixpoint scan_links (verbose : bool) (event_links : list node)
  (event_urls : list str) : M (list str) :=
  match event_links with
  | [] => mret event_urls
  | link :: rest =>
      href ← lift (get_href link);
      if PyStr.contains href (py "/event/") then
        when verbose (print (py "    Found event link: " ++ href));;
        full_url ← lift (urljoin BASE_URL href);
        let full_url := canonical_url full_url in
        scan_links verbose rest (append_new event_urls full_url)
      else scan_links verbose rest event_urls
  end.

(** The body of a successful attempt, up to its [break]. *)
Definition scan_page (verbose : bool) (status_code : Z) (soup : node)
  (event_urls : list str) : M (list str) :=
  when verbose (print (py "  Status: " ++ PyStr.of_Z status_code));;
  let event_links := event_links_of soup in
  when verbose
    (print (py "  Total links found: " ++ PyStr.of_nat (length event_links)));;
  event_urls ← scan_links verbose event_links event_urls;
  when verbose
    (print (py "  Found " ++ PyStr.of_nat (length event_urls)
            ++ py " unique event URLs"));;
  mret event_urls.

(** [for attempt in range(max_retries): try: ...], over the attempts left. *)
Fixpoint event_urls_attempts (url : str) (verbose : bool) (attempts : list nat)
  (event_urls : list str) : M (list str) :=
  match attempts with
  | [] => mret event_urls
  | attempt :: rest =>
      when verbose
        (print (py "  Fetching: " ++ url ++ py " (attempt "
                ++ PyStr.of_nat (attempt + 1) ++ py "/"
                ++ PyStr.of_nat max_retries ++ py ")"));;
      response ← http_get url;
      match response with
      | Response status_code content =>
          if (status_code =? 200)%Z then
            scan_page verbose status_code content event_urls
          else
            eprint (py "  Status " ++ PyStr.of_Z status_code ++ py " for " ++ url
                    ++ py ", retrying in 5 seconds...");;
            (if attempt <? max_retries - 1 then sleep 5
             else eprint (py "  Failed after " ++ PyStr.of_nat max_retries
                          ++ py " attempts"));;
            event_urls_attempts url verbose rest event_urls
      | RequestException e repr =>
          eprint (py "Error fetching " ++ url ++ py ": " ++ e);;
          when verbose (print (py "  Full error: " ++ repr));;
          (if attempt <? max_retries - 1 then
             eprint (py "  Retrying in 5 seconds...");;
             sleep 5
           else eprint (py "  Failed after " ++ PyStr.of_nat max_retries
                        ++ py " attempts"));;
          event_urls_attempts url verbose rest event_urls
      end
  end.

Definition get_event_urls_from_page (url : str) (verbose : bool) : M (list str) :=
  event_urls_attempts url verbose (seq 0 max_retries) [].

(** *** [get_artists_from_event] *)

(** [artist_name = link.get_text(strip=True); if artist_name:
    artists.add(artist_name)]. *)
Definition add_artist (artists : gset str) (link : node) : gset str :=
  let artist_name := get_text link in
  if nonempty artist_name then artists ∪ {[artist_name]} else artists.

(** The first loop: anchors of class [link-block-target]. *)
Definition artist_links (soup : node) : list node :=
  find_all [py "a"] (Some (fun x => bool_decide (x = py "link-block-target")))
           false soup.

(** The second loop: headings whose class list has [event-detail-artists]. *)
Definition artist_headings (soup : node) : list node :=
  filter (fun tag => py "event-detail-artists" ∈ get_class tag)
         (find_all [py "h1"; py "h2"; py "h3"] None false soup).

(** [soup.find('section', class_='lineup-section') or
    soup.find('div', class_='lineup')]; a tag is always true. *)
Definition lineup_section (soup : node) : option node :=
  match find [py "section"]
             (Some (fun x => bool_decide (x = py "lineup-section"))) soup with
  | Some section => Some section
  | None => find [py "div"] (Some (fun x => bool_decide (x = py "lineup"))) soup
  end.

(** The third loop: the first anchor of every list item of the section. *)
Definition lineup_links (soup : node) : list node :=
  match lineup_section soup with
  | Some section =>
      omap (find [py "a"] None) (find_all [py "li"] None false section)
  | None => []
  end.

(** The three loops of a successful attempt, on the set [artists]. *)
Definition scan_lineup (soup : node) (artists : gset str) : gset str :=
  let artists := foldl add_artist artists (artist_links soup) in
  let artists := foldl add_artist artists (artist_headings soup) in
  foldl add_artist artists (lineup_links soup).

Definition is_empty_set (s : gset str) : bool := bool_decide (s = ∅).

Fixpoint artists_attempts (event_url : str) (verbose : bool)
  (attempts : list nat) (artists : gset str) : M (gset str) :=
  match attempts with
  | [] => mret artists
  | attempt :: rest =>
      response ← http_get event_url;
      match response with
      | Response status_code content =>
          if (status_code =? 200)%Z then
            let artists := scan_lineup content artists in
            when (verbose && is_empty_set artists)
              (print (LF ++ py "  Warning: No artists found for " ++ event_url));;
            mret artists
          else
            when (verbose || (attempt =? max_retries - 1))
              (eprint (LF ++ py "  Status " ++ PyStr.of_Z status_code ++ py " for "
                       ++ event_url ++ py ", retrying in 5 seconds..."));;
            (if attempt <? max_retries - 1 then sleep 5
             else eprint (py "  Failed after " ++ PyStr.of_nat max_retries
                          ++ py " attempts"));;
            artists_attempts event_url verbose rest artists
      | RequestException e repr =>
          when (verbose || (attempt =? max_retries - 1))
            (eprint (LF ++ py "Error fetching event " ++ event_url ++ py ": " ++ e));;
          when verbose (print (py "  Full error: " ++ repr));;
          (if attempt <? max_retries - 1 then
             when verbose (eprint (py "  Retrying in 5 seconds..."));;
             sleep 5
           else when verbose
                  (eprint (py "  Failed after " ++ PyStr.of_nat max_retries
                           ++ py " attempts")));;
          artists_attempts event_url verbose rest artists
      end
  end.

Definition get_artists_from_event (event_url : str) (verbose : bool)
  : M (gset str) :=
  artists_attempts event_url verbose (seq 0 max_retries) ∅.

(** *** [get_all_event_urls] *)

Definition main_url (username : str) : str :=
  BASE_URL ++ py "/user/" ++ username ++ py "/events".

Definition year_url (username : str) (year : Z) : str :=
  BASE_URL ++ py "/user/" ++ username ++ py "/events/" ++ PyStr.of_Z year.

(** [for year in range(start_year, end_year + 1): ...], over the years left. *)
Fixpoint year_pages (username : str) (verbose : bool) (years : list Z)
  (all_event_urls : list str) : M (list str) :=
  match years with
  | [] => mret all_event_urls
  | year :: rest =>
      print (py "Fetching events from " ++ PyStr.of_Z year ++ py "...");;
      event_urls ← get_event_urls_from_page (year_url username year) verbose;
      let new_urls :=
        filter (fun url => url ∉ all_event_urls) event_urls in
      let all_event_urls := all_event_urls ++ new_urls in
      print (py "Found " ++ PyStr.of_nat (length new_urls)
             ++ py " new events in " ++ PyStr.of_Z year);;
      sleep 1;;
      year_pages username verbose rest all_event_urls
  end.

Definition get_all_event_urls (username : str) (start_year end_year : Z)
  (verbose : bool) : M (list str) :=
  let all_event_urls := [] in
  print (py "Fetching events from main page...");;
  event_urls ← get_event_urls_from_page (main_url username) verbose;
  let all_event_urls := all_event_urls ++ event_urls in
  print (py "Found " ++ PyStr.of_nat (length event_urls)
         ++ py " events on main page");;
  sleep 1;;
  year_pages username verbose (range start_year (end_year + 1)) all_event_urls.
(** *** [sort_artists] *)

(** The inner function [sort_key] of [sort_artists]. *)
Definition sort_key (ignore_the : bool) (artist : str) : str :=
  if ignore_the && PyStr.startswith (str_lower artist) (py "the ")
  then str_lower (PyStr.slice_from artist 4)
  else str_lower artist.

(** [sorted(artists, key=sort_key)], over the set as its iteration yields it. *)
Definition sort_artists (artists : gset str) (ignore_the : bool) : list str :=
  sorted (set_iter artists) (sort_key ignore_the).

(** *** [format_output_with_headings] *)

(** The grouping string of one artist, [check_char] in the first loop and
    [group_letter] in the second: the same three source lines. *)
Definition group_letter (ignore_the : bool) (artist : str) : result str :=
  c ← PyStr.index artist 0;
  let check_char := str_upper c in
  if ignore_the && PyStr.startswith (str_lower artist) (py "the ")
     && (4 <? length artist)
  then c ← PyStr.index artist 4; Ok (str_upper c)
  else Ok check_char.

(** [for x in l: if test(x): acc.append(x)], where the test may raise. *)
Fixpoint select (test : str -> result bool) (l : list str) : result (list str) :=
  match l with
  | [] => Ok []
  | x :: l' =>
      b ← test x;
      acc ← select test l';
      Ok (if b : bool then x :: acc else acc)
  end.

(** The lines after a heading: the members, or the placeholder. *)
Definition members_or_none (members : list str) : list str :=
  match members with
  | [] => [py "(none)"]
  | _ => members
  end.

(** The names collected in the first loop. *)
Definition numbers_symbols (ignore_the : bool) (sorted_artists : list str)
  : result (list str) :=
  select (fun artist =>
            check_char ← group_letter ignore_the artist;
            Ok (negb (str_isalpha check_char)))
         sorted_artists.

(** The names collected for one [letter] of the second loop. *)
Definition artists_for_letter (ignore_the : bool) (sorted_artists : list str)
  (letter : str) : result (list str) :=
  select (fun artist =>
            g ← group_letter ignore_the artist;
            Ok (bool_decide (g = letter)))
         sorted_artists.

(** The letters the second loop runs over, each a one-character string. *)
Definition letters : list str :=
  (fun c => [c]) <$> py "ABCDEFGHIJKLMNOPQRSTUVWXYZ".

(** The second loop, over the remaining [ls] of the letters. *)
Fixpoint letter_sections (ignore_the : bool) (sorted_artists : list str)
  (ls : list str) (output_lines : list str) : result (list str) :=
  match ls with
  | [] => Ok output_lines
  | letter :: ls' =>
      let output_lines := output_lines ++ [LF ++ py "=== " ++ letter ++ py " ==="] in
      members ← artists_for_letter ignore_the sorted_artists letter;
      letter_sections ignore_the sorted_artists ls'
        (output_lines ++ members_or_none members)
  end.

Definition format_output_with_headings (sorted_artists : list str)
  (ignore_the : bool) : result (list str) :=
  let output_lines := [LF ++ py "=== # (Numbers & Symbols) ==="] in
  members ← numbers_symbols ignore_the sorted_artists;
  let output_lines := output_lines ++ members_or_none members in
  letter_sections ignore_the sorted_artists letters output_lines.


(** *** [main] *)

(** The parsed command line. *)
Record args := {
  username : str;
  start_year : Z;
  end_year : Z;
  ignore_the : bool;
  letter_headings : bool;
  verbose : bool;
  output : option str;
}.

(** [enumerate(l, 1)]. *)
Definition enumerate1 {A} (l : list A) : list (nat * A) :=
  zip (seq 1 (length l)) l.

(** [for x in l: body(x)], each step run for its effects. *)
Fixpoint for_each {A} (l : list A) (body : A -> M unit) : M unit :=
  match l with
  | [] => mret ()
  | x :: l' => body x;; for_each l' body
  end.

(** The first harvesting loop, threading [all_artists] and [failed_count]. *)
Fixpoint harvest (verbose : bool) (total : nat) (items : list (nat * str))
  (all_artists : gset str) (failed_count : nat) : M (gset str * nat) :=
  match items with
  | [] => mret (all_artists, failed_count)
  | (i, event_url) :: rest =>
      (if negb verbose then
         print_end (py "Processing event " ++ PyStr.of_nat i ++ py "/"
                    ++ PyStr.of_nat total ++ py "...") CR
       else
         print (LF ++ py "Processing event " ++ PyStr.of_nat i ++ py "/"
                ++ PyStr.of_nat total ++ py ": " ++ event_url));;
      artists ← get_artists_from_event event_url verbose;
      '(all_artists, failed_count) ←
        (if negb (is_empty_set artists) then
           when verbose
             (print (py "  Found " ++ PyStr.of_nat (size artists)
                     ++ py " artist(s): "
                     ++ PyStr.join (py ", ") (take 3 (set_iter artists))
                     ++ (if 3 <? size artists then py "..." else [])));;
           mret (all_artists ∪ artists, failed_count)
         else mret (all_artists, failed_count + 1));
      sleep (1 # 2);;
      harvest verbose total rest all_artists failed_count
  end.

(** The second harvesting loop, which follows the first in [main]. *)
Fixpoint harvest_again (total : nat) (items : list (nat * str))
  (all_artists : gset str) : M (gset str) :=
  match items with
  | [] => mret all_artists
  | (i, event_url) :: rest =>
      print_end (py "Processing event " ++ PyStr.of_nat i ++ py "/"
                 ++ PyStr.of_nat total ++ py "...") CR;;
      artists ← get_artists_from_event event_url false;
      sleep (1 # 2);;
      harvest_again total rest (all_artists ∪ artists)
  end.

(** The artist stage of [main]: everything between the early exit and the
    sort. *)
Definition extract_artists (verbose : bool) (event_urls : list str)
  : M (gset str) :=
  print (LF ++ py "Extracting artists from events...");;
  '(all_artists, failed_count) ←
    harvest verbose (length event_urls) (enumerate1 event_urls) ∅ 0;
  print [];;
  when verbose
    (print (LF ++ py "Events processed: " ++ PyStr.of_nat (length event_urls));;
     print (py "Events with no artists found: " ++ PyStr.of_nat failed_count);;
     print (py "Total unique artists: " ++ PyStr.of_nat (size all_artists)));;
  all_artists ←
    harvest_again (length event_urls) (enumerate1 event_urls) all_artists;
  print [];;
  mret all_artists.

(** The output stage: to the named file, or line by line to the console. *)
Definition write_output (output : option str) (output_lines : list str)
  : M unit :=
  match output with
  | Some path =>
      if nonempty path then
        fun t =>
          match open_write t path with
          | None =>
              (emit (WriteFile path (PyStr.join LF output_lines ++ LF));;
               print (LF ++ py "Results written to: " ++ path)) t
          | Some e =>
              (eprint (py "Error writing to file: " ++ e);;
               sys_exit 1) t
          end
      else for_each output_lines print
  | None => for_each output_lines print
  end.

Definition main (a : args) : M unit :=
  print (py "Scraping events for user: " ++ username a);;
  print (py "Searching from " ++ PyStr.of_Z (start_year a) ++ py " to "
         ++ PyStr.of_Z (end_year a));;
  print (PyStr.repeat_str (py "-") 50);;
  event_urls ←
    get_all_event_urls (username a) (start_year a) (end_year a) (verbose a);
  print (LF ++ py "Total events found: " ++ PyStr.of_nat (length event_urls));;
  when (verbose a)
    (print (LF ++ py "Event URLs:");;
     for_each (take 10 event_urls) (fun url => print (py "  " ++ url));;
     when (10 <? length event_urls)
       (print (py "  ... and " ++ PyStr.of_nat (length event_urls - 10)
               ++ py " more")));;
  (if bool_decide (event_urls = []) then
     print (py "No events found for user: " ++ username a);;
     sys_exit 0
   else mret ());;
  all_artists ← extract_artists (verbose a) event_urls;
  let sorted_artists := sort_artists all_artists (ignore_the a) in
  let output_lines :=
    [py "Artists (" ++ PyStr.of_nat (length sorted_artists) ++ py " unique):"] in
  output_lines ←
    (if letter_headings a then
       lines ← lift (format_output_with_headings sorted_artists (ignore_the a));
       mret (output_lines ++ lines)
     else
       mret ((output_lines ++ [PyStr.repeat_str (py "-") 50]) ++ sorted_artists));
  write_output (output a) output_lines.

End Script.

(** ** Sample environments *)

Module Sample.

Definition no_attrs : attrs := {| attr_href := None; attr_class := None |}.
Definition with_class (tokens : list str) : attrs :=
  {| attr_href := None; attr_class := Some tokens |}.
Definition with_href (h : str) : attrs :=
  {| attr_href := Some h; attr_class := None |}.

(** A listing page: one event card whose two links name event 123 with
    different query strings and trailing paths, and a link elsewhere. *)
Definition listing : node :=
  Tag (py "[document]") no_attrs
    [Tag (py "div") (with_class [py "events-list-item"])
       [Tag (py "a") (with_href (py "/event/123?from=list")) [NavigableString (py "Show")];
        Tag (py "a") (with_href (py "/event/123/attendance?tab=going"))
          [NavigableString (py "Going")]];
     Tag (py "a") (with_href (py "/user/alice")) [NavigableString (py "alice")]].

(** A lineup page: one artist under the first heuristic, two under the
    third, one of them the same, and a list item with blank text. *)
Definition lineup : node :=
  Tag (py "[document]") no_attrs
    [Tag (py "a") (with_class [py "link-block-target"])
       [NavigableString (py " Artist A ")];
     Tag (py "section") (with_class [py "lineup-section"])
       [Tag (py "ul") no_attrs
          [Tag (py "li") no_attrs
             [Tag (py "a") no_attrs [NavigableString (py "Artist A")]];
           Tag (py "li") no_attrs
             [Tag (py "a") no_attrs [NavigableString (py "Artist B")]];
           Tag (py "li") no_attrs
             [Tag (py "a") no_attrs [NavigableString (py "   ")]]]]].

Definition blank : node := Tag (py "[document]") no_attrs [].

(** [urljoin] on the links of these pages: a path that starts with a slash
    replaces the path of the base. *)
Definition join_path (base href : str) : result str :=
  if PyStr.startswith href (py "/") then Ok (base ++ href) else Ok href.

(** The site as user alice sees it: her main listing page, the lineup page
    of event 123, and 404 for every other address. *)
Definition site (history : list event) (url : str) : reply :=
  if bool_decide (url = py "https://www.last.fm/user/alice/events") then
    Response 200 listing
  else if bool_decide (url = py "https://www.last.fm/event/123/lineup") then
    Response 200 lineup
  else Response 404 blank.

Definition online : Env := {|
  requests_get := site;
  open_write := fun _ _ => None;
  urljoin := join_path;
  set_iter := elements;
  set_iter_perm := fun s => reflexivity (elements s);
|}.

(** A site that answers every request with status 503. *)
Definition unavailable : Env := {|
  requests_get := fun _ _ => Response 503 blank;
  open_write := fun _ _ => None;
  urljoin := join_path;
  set_iter := elements;
  set_iter_perm := fun s => reflexivity (elements s);
|}.

(** A network on which every request fails. *)
Definition offline : Env := {|
  requests_get := fun _ _ =>
    RequestException (py "connection refused")
                     (py "ConnectionError('connection refused')");
  open_write := fun _ _ => None;
  urljoin := join_path;
  set_iter := elements;
  set_iter_perm := fun s => reflexivity (elements s);
|}.

Definition alice (from to : Z) (v : bool) : args := {|
  username := py "alice";
  start_year := from;
  end_year := to;
  ignore_the := false;
  letter_headings := false;
  verbose := v;
  output := None;
|}.

End Sample.

(** ** Definitions that state the properties *)

(** The sort key as the specification words it: the article is dropped
    only when more text follows it. *)
Definition spec_sort_key {U : Unicode} (ignore_the : bool) (name : str) : str :=
  if ignore_the && PyStr.startswith (str_lower name) (py "the ")
     && (4 <? length name)
  then str_lower (drop 4 name)
  else str_lower name.

(** [a <= b] on keys, as the sort sees it: not [b < a]. *)
Definition key_le {A} (key : A -> str) (a b : A) : Prop :=
  PyStr.ltb (key b) (key a) = false.

(** The elements of a list in the order of their first occurrence. *)
Definition first_seen (l : list str) : list str := foldl append_new [] l.

(** The name that shows the non-ASCII letter case: its first code point is
    U+00C9, E with acute. *)
Definition edith_piaf : str := 201%N :: py "dith Piaf".


(** The URLs a listing page may return: each ends in [/lineup] and has no
    question mark, and none occurs twice. *)
Definition clean_urls (urls : list str) : Prop :=
  Forall (fun u => PyStr.endswith u (py "/lineup") = true ∧ 63%N ∉ u) urls
  ∧ NoDup urls.

(** The requests and sleeps of a history, in order. *)
Definition is_network (e : event) : bool :=
  match e with
  | Get _ | Sleep _ => true
  | _ => false
  end.

Definition network_view (t : list event) : list event :=
  filter (fun e => is_network e = true) t.

(** The URLs requested in a history, in order. *)
Definition requests_of (t : list event) : list str :=
  omap (fun e => match e with Get url => Some url | _ => None end) t.

Definition is_stdout (e : event) : Prop :=
  match e with
  | Stdout _ => True
  | _ => False
  end.

Definition is_stderr (e : event) : Prop :=
  match e with
  | Stderr _ => True
  | _ => False
  end.

(** A reply that makes the fetcher retry: any status but 200, or a
    [RequestException]. *)
Definition failed (r : reply) : Prop :=
  match r with
  | Response status_code _ => status_code ≠ 200%Z
  | RequestException _ _ => True
  end.

(** The names a heuristic yields from the elements it matched: their
    stripped texts, the empty ones left out. *)
Definition names_of (links : list node) : gset str :=
  list_to_set (filter (fun s => nonempty s = true) (get_text <$> links)).

(** The three lines [main] prints before the crawl. *)
Definition banner (a : args) : list event :=
  [Stdout ((py "Scraping events for user: " ++ username a) ++ LF);
   Stdout ((py "Searching from " ++ PyStr.of_Z (start_year a) ++ py " to "
            ++ PyStr.of_Z (end_year a)) ++ LF);
   Stdout (PyStr.repeat_str (py "-") 50 ++ LF)].

(** The listing pages of a crawl, in the order they are fetched. *)
Definition listing_pages (username : str) (start_year end_year : Z) : list str :=
  main_url username :: (year_url username <$> range start_year (end_year + 1)).

(** [all_event_urls.extend([url for url in event_urls if url not in
    all_event_urls])]: what one year's page adds to the list. *)
Definition merge_page (all_event_urls event_urls : list str) : list str :=
  all_event_urls ++ filter (fun url => url ∉ all_event_urls) event_urls.

(** [page] is what the extractor returns for [url] at some point of a run. *)
Definition extracted {U : Unicode} {E : Env} (verbose : bool) (url : str)
  (page : list str) : Prop :=
  ∃ t1 t2, get_event_urls_from_page url verbose t1 = (Ok page, t2).

(** The pauses of a history, in order, in seconds. *)
Definition sleeps_of (t : list event) : list Q :=
  omap (fun e => match e with Sleep seconds => Some seconds | _ => None end) t.

(** ** Definitions that state further properties *)

(** The heading lines of the grouped output. *)
Definition is_heading (line : str) : Prop :=
  line = LF ++ py "=== # (Numbers & Symbols) ==="
  ∨ ∃ letter, letter ∈ letters ∧ line = LF ++ py "=== " ++ letter ++ py " ===".

(** A string with no whitespace at either end. *)
Definition trimmed (s : str) : Prop :=
  (∀ c, head s = Some c → PyStr.isspace c = false)
  ∧ (∀ c, last s = Some c → PyStr.isspace c = false).

(** A set of artist names as the lineup fetcher builds them: stripped texts
    that are not empty. *)
Definition artist_names (artists : gset str) : Prop :=
  ∀ name, name ∈ artists → name ≠ [] ∧ trimmed name.

(** The [href] values of a list of links, in order. *)
Definition hrefs_of (links : list node) : list str :=
  omap (fun link => match link with
                    | Tag _ a _ => attr_href a
                    | NavigableString _ => None
                    end) links.

(** The links of a listing page that name an event, in the order the
    extractor meets them. *)
Definition event_hrefs {U : Unicode} (soup : node) : list str :=
  filter (fun href => PyStr.contains href (py "/event/") = true)
         (hrefs_of (event_links_of soup)).

(** A site that is down for the first two requests of a run, with status
    503, and serves the sample lineup page from the third on. *)
Definition down_twice (history : list event) (url : str) : reply :=
  if length (requests_of history) <? 2 then Response 503 Sample.blank
  else Response 200 Sample.lineup.

Definition recovering : Env := {|
  requests_get := down_twice;
  open_write := fun _ _ => None;
  urljoin := Sample.join_path;
  set_iter := elements;
  set_iter_perm := fun s => reflexivity (elements s);
|}.

(** A site that answers every request with status 200: the sample lineup
    page at an address that ends in [/lineup], the sample listing page at
    any other. *)
Definition always_up : Env := {|
  requests_get := fun _ url =>
    if PyStr.endswith url (py "/lineup") then Response 200 Sample.lineup
    else Response 200 Sample.listing;
  open_write := fun _ _ => None;
  urljoin := Sample.join_path;
  set_iter := elements;
  set_iter_perm := fun s => reflexivity (elements s);
|}.

(** ** Proof automation *)

(** Closes the goal of a failed attempt once the run has been reduced to a
    history: [d0] is what was printed before the request, and [Hd0] says that
    it holds no request and no sleep. *)
Ltac close_attempt d0 Hd0 :=
  rewrite <- !app_assoc; eexists (d0 ++ _);
  split; [reflexivity|];
  split; [unfold network_view in *; rewrite filter_app, Hd0; reflexivity|];
  apply Exists_app; right;
  repeat first [apply Exists_cons_hd; exact I | apply Exists_cons_tl].

(** Finds the recursive call in the goal and replaces it by the result the
    induction hypothesis [IH] gives for its history. *)
Ltac continue_with IH :=
  match goal with
  | |- context [artists_attempts _ _ _ _ ?h] =>
      let r := fresh "r" in let d := fresh "d" in
      destruct (IH h) as (r & d & -> & _)
  end.

(** * Theorems *)

(** ** Strings *)

Section StringFacts.

Lemma index_lt (s : str) (i : nat) :
  i < length s → ∃ c, PyStr.index s i = Ok [c].
Proof.
  intros Hi. unfold PyStr.index.
  destruct (lookup_lt_is_Some_2 s i Hi) as [c ->]. by exists c.
Qed.

Lemma index_ge (s : str) (i : nat) :
  length s ≤ i → PyStr.index s i = Raise IndexError.
Proof.
  intros Hi. unfold PyStr.index. by rewrite (lookup_ge_None_2 s i Hi).
Qed.

Lemma ltb_irrefl (s : str) : PyStr.ltb s s = false.
Proof.
  induction s as [|a s IH]; simpl; [done|].
  by rewrite N.ltb_irrefl, N.eqb_refl.
Qed.

Lemma ltb_trans (s t u : str) :
  PyStr.ltb s t = true → PyStr.ltb t u = true → PyStr.ltb s u = true.
Proof.
  revert t u. induction s as [|a s IH]; intros [|b t] [|c u]; simpl; try done.
  destruct (N.ltb_spec a b), (N.ltb_spec b c), (N.ltb_spec a c);
    try done; try lia.
  - destruct (N.eqb_spec b c); [lia|done].
  - destruct (N.eqb_spec a b); [lia|done].
  - destruct (N.eqb_spec a b), (N.eqb_spec b c), (N.eqb_spec a c);
      try done; try lia. eauto.
Qed.

Lemma ltb_total (s t : str) :
  PyStr.ltb s t = false → PyStr.ltb t s = false → s = t.
Proof.
  revert t. induction s as [|a s IH]; intros [|b t]; simpl; try done.
  destruct (N.ltb_spec a b), (N.ltb_spec b a); try done; try lia.
  assert (a = b) as -> by lia. rewrite N.eqb_refl.
  intros ? ?. f_equal. by apply IH.
Qed.

Lemma ltb_asym (s t : str) : PyStr.ltb s t = true → PyStr.ltb t s = false.
Proof.
  intros Hst. destruct (PyStr.ltb t s) eqn:Hts; [|done].
  by rewrite <- (ltb_irrefl s), <- (ltb_trans _ _ _ Hst Hts).
Qed.

Lemma leb_trans (s t u : str) :
  PyStr.ltb t s = false → PyStr.ltb u t = false → PyStr.ltb u s = false.
Proof.
  intros Hst Htu. destruct (PyStr.ltb u s) eqn:Hus; [|done].
  destruct (PyStr.ltb s t) eqn:Hlt.
  - by rewrite (ltb_trans _ _ _ Hus Hlt) in Htu.
  - by rewrite <- (ltb_total _ _ Hlt Hst), Hus in Htu.
Qed.

End StringFacts.

(** ** The stable sort *)

Section SortFacts.
Context {A : Type} (key : A -> str).

Lemma insert_sorted_perm (x : A) (l : list A) :
  insert_sorted key x l ≡ₚ x :: l.
Proof.
  induction l as [|y l IH]; simpl; [done|].
  destruct (PyStr.ltb (key y) (key x)); [|done].
  by rewrite IH, Permutation_swap.
Qed.

Lemma sorted_perm (l : list A) : sorted l key ≡ₚ l.
Proof.
  induction l as [|x l IH]; simpl; [done|].
  unfold sorted in *. simpl. by rewrite insert_sorted_perm, IH.
Qed.

Lemma insert_sorted_ordered (x : A) (l : list A) :
  StronglySorted (key_le key) l →
  StronglySorted (key_le key) (insert_sorted key x l).
Proof.
  induction 1 as [|y l Hl IH Hy]; simpl.
  - repeat constructor.
  - destruct (PyStr.ltb (key y) (key x)) eqn:Hyx.
    + constructor; [done|].
      rewrite insert_sorted_perm. constructor; [|done].
      by apply ltb_asym.
    + constructor; [by constructor|].
      constructor; [done|].
      eapply Forall_impl; [exact Hy|].
      intros z Hz. unfold key_le in *. by eapply leb_trans.
Qed.

Lemma sorted_ordered (l : list A) : StronglySorted (key_le key) (sorted l key).
Proof.
  induction l as [|x l IH]; unfold sorted; simpl; [constructor|].
  by apply insert_sorted_ordered.
Qed.

Lemma insert_sorted_stable (k : str) (x : A) (l : list A) :
  filter (fun a => key a = k) (insert_sorted key x l)
  = filter (fun a => key a = k) (x :: l).
Proof.
  induction l as [|y l IH]; simpl; [done|].
  destruct (PyStr.ltb (key y) (key x)) eqn:Hyx; [|done].
  rewrite filter_cons, IH, !filter_cons.
  destruct (decide (key y = k)) as [Hy|Hy]; [|done].
  destruct (decide (key x = k)) as [Hx|Hx]; [|done].
  rewrite Hy, Hx, ltb_irrefl in Hyx. done.
Qed.

Lemma sorted_stable (k : str) (l : list A) :
  filter (fun a => key a = k) (sorted l key) = filter (fun a => key a = k) l.
Proof.
  induction l as [|x l IH]; unfold sorted in *; simpl; [done|].
  by rewrite insert_sorted_stable, !filter_cons, IH.
Qed.

End SortFacts.

(** ** The grouped output *)

Section FormatFacts.
Context {U : Unicode}.

Lemma bind_Ok {A B} (a : A) (f : A -> result B) : (Ok a ≫= f) = f a.
Proof. done. Qed.

Lemma group_letter_Ok (ignore_the : bool) (artist : str) :
  artist ≠ [] → ∃ g, group_letter ignore_the artist = Ok g.
Proof.
  intros Hne. unfold group_letter.
  destruct (index_lt artist 0) as [c0 ->]; [destruct artist; simpl; [done|lia]|].
  rewrite bind_Ok.
  destruct (ignore_the && _ && (4 <? length artist)) eqn:Hcond; [|by eexists].
  apply andb_prop in Hcond as [_ Hlen%Nat.ltb_lt].
  destruct (index_lt artist 4 Hlen) as [c4 ->]. by eexists.
Qed.

Lemma group_letter_empty (ignore_the : bool) :
  group_letter ignore_the [] = Raise IndexError.
Proof. done. Qed.

Lemma select_Ok (test : str -> result bool) (l : list str) :
  Forall (fun x => ∃ b, test x = Ok b) l → ∃ r, select test l = Ok r.
Proof.
  induction 1 as [|x l [b Hb] _ [r IH]]; simpl; [by eexists|].
  rewrite Hb, bind_Ok, IH, bind_Ok. by eexists.
Qed.

Lemma numbers_symbols_Ok (ignore_the : bool) (l : list str) :
  Forall (fun artist => artist ≠ []) l → ∃ r, numbers_symbols ignore_the l = Ok r.
Proof.
  intros Hl. apply select_Ok. eapply Forall_impl; [exact Hl|].
  intros artist Hne. simpl.
  destruct (group_letter_Ok ignore_the artist Hne) as [g ->]. by eexists.
Qed.

Lemma artists_for_letter_Ok (ignore_the : bool) (l : list str) (letter : str) :
  Forall (fun artist => artist ≠ []) l →
  ∃ r, artists_for_letter ignore_the l letter = Ok r.
Proof.
  intros Hl. apply select_Ok. eapply Forall_impl; [exact Hl|].
  intros artist Hne. simpl.
  destruct (group_letter_Ok ignore_the artist Hne) as [g ->]. by eexists.
Qed.

Lemma letter_sections_Ok (ignore_the : bool) (l ls out : list str) :
  Forall (fun artist => artist ≠ []) l →
  ∃ r, letter_sections ignore_the l ls out = Ok r.
Proof.
  intros Hl. revert out. induction ls as [|letter ls IH]; intros out; simpl.
  - by eexists.
  - destruct (artists_for_letter_Ok ignore_the l letter Hl) as [r ->].
    rewrite bind_Ok. apply IH.
Qed.

End FormatFacts.

(** C10.  On a list of non-empty names the grouped formatter returns its
    lines and raises nothing: [artist[0]] is in range because the name is
    not empty, and [artist[4]] is read only under the guard
    [len(artist) > 4], so the grouping string of every name is defined. *)
Theorem format_output_with_headings_total {U : Unicode}
  (sorted_artists : list str) (ignore_the : bool) :
  Forall (fun artist => artist ≠ []) sorted_artists →
  (∃ output_lines,
      format_output_with_headings sorted_artists ignore_the = Ok output_lines)
  ∧ Forall (fun artist => ∃ g, group_letter ignore_the artist = Ok g)
           sorted_artists.
Proof.
  intros Hl. split.
  - unfold format_output_with_headings.
    destruct (numbers_symbols_Ok ignore_the _ Hl) as [r ->].
    rewrite bind_Ok. by apply letter_sections_Ok.
  - eapply Forall_impl; [exact Hl|]. intros artist. apply group_letter_Ok.
Qed.

Lemma format_output_with_headings_total_witness :
  Forall (fun artist => artist ≠ []) [py "The Who"; py "The"; py "x"]
  ∧ (∃ output_lines,
        format_output_with_headings (U:=Latin1.tables)
          [py "The Who"; py "The"; py "x"] true = Ok output_lines).
Proof.
  assert (Forall (fun artist : str => artist ≠ []) [py "The Who"; py "The"; py "x"])
    as Hne by (repeat constructor; discriminate).
  split; [exact Hne|].
  exact (proj1 (format_output_with_headings_total (U:=Latin1.tables) _ true Hne)).
Defined.

(** ** Who is in which bucket *)

Section BucketFacts.
Context {U : Unicode}.

Lemma elem_of_select (test : str -> result bool) (l r : list str) (x : str) :
  select test l = Ok r → x ∈ r ↔ x ∈ l ∧ test x = Ok true.
Proof.
  revert r. induction l as [|y l IH]; simpl; intros r.
  - intros [= <-]. rewrite elem_of_nil. tauto.
  - destruct (test y) as [b|e] eqn:Hy; [|done]. rewrite bind_Ok.
    destruct (select test l) as [acc|e]; [|done]. rewrite bind_Ok.
    intros [= <-]. specialize (IH acc eq_refl). rewrite elem_of_cons.
    destruct b.
    + rewrite elem_of_cons, IH. split.
      * intros [->|[? ?]]; [|tauto]. split; [by left|done].
      * intros [[->|?] ?]; [by left|tauto].
    + rewrite IH. split; [tauto|].
      intros [[->|?] Ht]; [congruence|tauto].
Qed.

(** A name is listed under Numbers & Symbols exactly when [isalpha] fails on
    its grouping string, and under a letter exactly when its grouping string
    is that letter. *)
Lemma bucket_membership (ignore_the : bool) (l : list str) (artist g : str) :
  artist ∈ l → group_letter ignore_the artist = Ok g →
  (∀ r, numbers_symbols ignore_the l = Ok r →
        artist ∈ r ↔ str_isalpha g = false)
  ∧ (∀ letter r, artists_for_letter ignore_the l letter = Ok r →
                 artist ∈ r ↔ g = letter).
Proof.
  intros Hin Hg. split.
  - intros r Hr. rewrite (elem_of_select _ _ _ _ Hr), Hg, bind_Ok.
    destruct (str_isalpha g); simpl; split; try tauto; try done.
    by intros [_ [=]].
  - intros letter r Hr. rewrite (elem_of_select _ _ _ _ Hr), Hg, bind_Ok.
    case_bool_decide; split; try tauto; try done. by intros [_ [=]].
Qed.

(** X1.  A name is in exactly one bucket when its grouping string is a
    non-letter or one of A-Z, given that [isalpha] holds of A-Z; a grouping
    string that is a letter outside A-Z leaves the name in no bucket. *)
Lemma one_bucket_or_none (ignore_the : bool) (l nums : list str)
  (artist g : str) :
  (∀ letter, letter ∈ letters → str_isalpha letter = true) →
  artist ∈ l → group_letter ignore_the artist = Ok g →
  numbers_symbols ignore_the l = Ok nums →
  (str_isalpha g = false ∧ artist ∈ nums
   ∧ ∀ letter r, letter ∈ letters →
                 artists_for_letter ignore_the l letter = Ok r → artist ∉ r)
  ∨ (g ∈ letters ∧ (artist ∉ nums)
     ∧ ∀ letter r, letter ∈ letters →
                   artists_for_letter ignore_the l letter = Ok r →
                   artist ∈ r ↔ letter = g)
  ∨ (str_isalpha g = true ∧ (g ∉ letters) ∧ (artist ∉ nums)
     ∧ ∀ letter r, letter ∈ letters →
                   artists_for_letter ignore_the l letter = Ok r → artist ∉ r).
Proof.
  intros Halpha Hin Hg Hnums.
  destruct (bucket_membership ignore_the l artist g Hin Hg) as [Hn Hl].
  specialize (Hn nums Hnums).
  destruct (str_isalpha g) eqn:Hg_alpha.
  - right. destruct (decide (g ∈ letters)) as [Hletter|Hletter].
    + left. split; [done|]. split; [rewrite Hn; done|].
      intros letter r _ Hr. rewrite (Hl letter r Hr). split; congruence.
    + right. split; [done|]. split; [done|]. split; [rewrite Hn; done|].
      intros letter r Hletter' Hr. rewrite (Hl letter r Hr). congruence.
  - left. split; [done|]. split; [by apply Hn|].
    intros letter r Hletter Hr. rewrite (Hl letter r Hr). intros ->.
    by rewrite (Halpha letter Hletter) in Hg_alpha.
Qed.

End BucketFacts.

Lemma one_bucket_or_none_witness :
  ∃ nums,
    numbers_symbols (U:=Latin1.tables) true [py "123 Band"; py "The Who"]
    = Ok nums
    ∧ (py "The Who" ∉ nums)
    ∧ ∀ letter r,
        letter ∈ letters →
        artists_for_letter (U:=Latin1.tables) true
          [py "123 Band"; py "The Who"] letter = Ok r →
        py "The Who" ∈ r ↔ letter = py "W".
Proof.
  exists [py "123 Band"].
  refine ((fun Hnums => conj Hnums _) _); [|by vm_compute].
  destruct (one_bucket_or_none (U:=Latin1.tables) true
              [py "123 Band"; py "The Who"] [py "123 Band"]
              (py "The Who") (py "W"))
    as [(Halpha & _)|[(_ & Hout & Hin)|(_ & Hletter & _)]].
  - intros letter Hin.
    repeat (apply elem_of_cons in Hin as [->|Hin]; [by vm_compute|]).
    by apply elem_of_nil in Hin.
  - apply (bool_decide_unpack _). by vm_compute.
  - by vm_compute.
  - exact Hnums.
  - by vm_compute in Halpha.
  - split; [exact Hout|exact Hin].
  - exfalso. apply Hletter. apply (bool_decide_unpack _). by vm_compute.
Defined.

(** C1, at the input where the code leaves the claim: a name whose first
    character is a letter outside A-Z.  [isalpha] holds of it, so the
    Numbers & Symbols loop skips the name, and no letter of A-Z equals it,
    so every letter loop skips it too: all 27 buckets print the placeholder
    and the name is on no line of the output. *)
Theorem accented_name_in_no_bucket :
  numbers_symbols (U:=Latin1.tables) false [edith_piaf] = Ok []
  ∧ Forall (fun letter =>
              artists_for_letter (U:=Latin1.tables) false [edith_piaf] letter = Ok [])
           letters
  ∧ (∃ output_lines,
        format_output_with_headings (U:=Latin1.tables) [edith_piaf] false
        = Ok output_lines
        ∧ (edith_piaf ∉ output_lines)
        ∧ length (filter (fun line => line = py "(none)") output_lines) = 27).
Proof.
  split; [by vm_compute|]. split.
  - set (ls := letters). vm_compute in ls. subst ls.
    repeat (constructor; [by vm_compute|]). constructor.
  - eexists. split; [by vm_compute|]. split.
    + apply (bool_decide_unpack _). by vm_compute.
    + by vm_compute.
Qed.

(** ** The sort key *)

(** The specification's own example: with the article ignored, the Beatles
    sort under B, and digits sort before letters. *)
Example sort_example :
  sorted [py "the Beatles"; py "ABBA"; py "Zebra"; py "123 Band"]
         (sort_key (U:=Latin1.tables) true)
  = [py "123 Band"; py "ABBA"; py "the Beatles"; py "Zebra"].
Proof. by vm_compute. Qed.

(** Off the names a run can meet, the code's key and the specification's
    part: the string "The " ends in a space, so it is no stripped text; it
    starts with "the " and nothing follows, so the specification gives it
    the key "the ", and the code, which does not look at the length, gives
    it the empty key. *)
Lemma sort_key_article_alone :
  sort_key (U:=Latin1.tables) true (py "The ") = []
  ∧ spec_sort_key (U:=Latin1.tables) true (py "The ") = py "the "
  ∧ sort_key (U:=Latin1.tables) true (py "The ")
    ≠ spec_sort_key (U:=Latin1.tables) true (py "The ").
Proof. repeat split; by vm_compute. Qed.

(** ** URL canonicalisation *)

Section UrlFacts.

Lemma split_head_no_sep (c : N) (s : str) :
  ∃ p ps, PyStr.split c s = p :: ps ∧ c ∉ p.
Proof.
  induction s as [|x s (p & ps & IH & Hp)]; simpl.
  - exists [], []. split; [done|]. apply not_elem_of_nil.
  - destruct (N.eqb_spec x c) as [->|Hne].
    + eexists [], _. split; [done|]. apply not_elem_of_nil.
    + rewrite IH. eexists _, _. split; [done|].
      rewrite not_elem_of_cons. split; congruence.
Qed.

Lemma split_no_sep (c : N) (s : str) : c ∉ s → PyStr.split c s = [s].
Proof.
  induction s as [|x s IH]; simpl; [done|].
  rewrite not_elem_of_cons. intros [Hne Hs].
  destruct (N.eqb_spec x c); [congruence|]. by rewrite IH.
Qed.

Lemma drop_query_no_query (u : str) : 63%N ∉ drop_query u.
Proof.
  unfold drop_query. by destruct (split_head_no_sep 63 u) as (p & ps & -> & Hp).
Qed.

Lemma drop_query_id (u : str) : 63%N ∉ u → drop_query u = u.
Proof. intros Hu. unfold drop_query. by rewrite split_no_sep. Qed.

Lemma slice_to_neg_sublist (u : str) (k : nat) : PyStr.slice_to_neg u k ⊆ u.
Proof.
  unfold PyStr.slice_to_neg. apply subseteq_take.
Qed.

Lemma strip_step_sublist (u suffix : str) :
  (if PyStr.endswith u suffix then PyStr.slice_to_neg u (length suffix) else u) ⊆ u.
Proof. destruct (PyStr.endswith u suffix); [apply slice_to_neg_sublist|done]. Qed.

Lemma strip_suffixes_sublist (u : str) : strip_suffixes u ⊆ u.
Proof.
  unfold strip_suffixes. generalize suffixes. intros l. revert u.
  induction l as [|s l IH]; intros u; simpl; [done|].
  etrans; [apply IH|]. apply strip_step_sublist.
Qed.

Lemma canonical_url_no_query (u : str) : 63%N ∉ canonical_url u.
Proof.
  unfold canonical_url. rewrite not_elem_of_app. split.
  - intros Hin. apply strip_suffixes_sublist in Hin.
    by apply drop_query_no_query in Hin.
  - apply (bool_decide_unpack _). by vm_compute.
Qed.

Lemma canonical_url_lineup (u : str) :
  PyStr.endswith (canonical_url u) (py "/lineup") = true.
Proof.
  unfold canonical_url, PyStr.endswith. apply bool_decide_eq_true.
  by apply suffix_app_r.
Qed.



Lemma canonical_url_eq (u : str) :
  canonical_url u = strip_suffixes (drop_query u) ++ py "/lineup".
Proof. done. Qed.


End UrlFacts.

Section UrlSuffix.









End UrlSuffix.




(** ** Computations *)

Section MonadFacts.
Context {A B : Type}.

Lemma bind_unfold (m : M A) (f : A -> M B) (t : list event) :
  (m ≫= f) t = match m t with
               | (Ok a, t') => f a t'
               | (Raise e, t') => (Raise e, t')
               end.
Proof. done. Qed.

Lemma bind_ok (m : M A) (f : A -> M B) (t t' : list event) (a : A) :
  m t = (Ok a, t') → (m ≫= f) t = f a t'.
Proof. intros H. by rewrite bind_unfold, H. Qed.

Lemma bind_inv (m : M A) (f : A -> M B) (t t2 : list event) (b : B) :
  (m ≫= f) t = (Ok b, t2) →
  ∃ a t1, m t = (Ok a, t1) ∧ f a t1 = (Ok b, t2).
Proof.
  rewrite bind_unfold. destruct (m t) as [[a|e] t1]; [eauto|done].
Qed.

End MonadFacts.

Lemma emit_run (e : event) (t : list event) : emit e t = (Ok (), t ++ [e]).
Proof. done. Qed.

Lemma when_inv (b : bool) (m : M unit) (t t' : list event) :
  when b m t = (Ok (), t') → (b = true ∧ m t = (Ok (), t')) ∨ (b = false ∧ t' = t).
Proof. destruct b; simpl; [eauto|]. intros [= <-]. eauto. Qed.

Lemma lift_inv {A} (r : result A) (t t' : list event) (a : A) :
  lift r t = (Ok a, t') → r = Ok a ∧ t' = t.
Proof. by intros [= -> ->]. Qed.

(** ** Histories *)

Lemma network_view_app (t1 t2 : list event) :
  network_view (t1 ++ t2) = network_view t1 ++ network_view t2.
Proof. apply filter_app. Qed.

Lemma requests_of_app (t1 t2 : list event) :
  requests_of (t1 ++ t2) = requests_of t1 ++ requests_of t2.
Proof. apply omap_app. Qed.

Lemma requests_of_Get (url : str) (t : list event) :
  requests_of (Get url :: t) = url :: requests_of t.
Proof. done. Qed.

Lemma requests_of_Stdout (s : str) (t : list event) :
  requests_of (Stdout s :: t) = requests_of t.
Proof. done. Qed.

Lemma requests_of_Sleep (seconds : Q) (t : list event) :
  requests_of (Sleep seconds :: t) = requests_of t.
Proof. done. Qed.

Lemma requests_of_nil : requests_of [] = [].
Proof. done. Qed.

Create Rewrite HintDb history.
#[export] Hint Rewrite requests_of_app requests_of_Get requests_of_Stdout
  requests_of_Sleep requests_of_nil : history.

Lemma requests_of_stdout (out : list event) :
  Forall is_stdout out → requests_of out = [].
Proof.
  induction 1 as [|e out He _ IH]; [done|]. by destruct e.
Qed.

(** ** The event-URL extractor *)

Section ExtractorFacts.
Context {U : Unicode} {E : Env}.

Lemma clean_urls_nil : clean_urls [].
Proof. split; constructor. Qed.

Lemma append_new_clean (urls : list str) (full_url : str) :
  clean_urls urls → clean_urls (append_new urls (canonical_url full_url)).
Proof.
  intros [Hall Hnd]. unfold append_new. case_bool_decide as Hin; [done|].
  split.
  - apply Forall_app. split; [done|]. constructor; [|done].
    split; [apply canonical_url_lineup | apply canonical_url_no_query].
  - apply NoDup_app. split; [done|]. split; [|apply NoDup_singleton].
    intros x Hx ->%list_elem_of_singleton. done.
Qed.

Lemma scan_links_unfold (verbose : bool) (link : node) (rest : list node)
  (event_urls : list str) :
  scan_links verbose (link :: rest) event_urls
  = (href ← lift (get_href link);
     if PyStr.contains href (py "/event/") then
       when verbose (print (py "    Found event link: " ++ href));;
       full_url ← lift (urljoin BASE_URL href);
       let full_url := canonical_url full_url in
       scan_links verbose rest (append_new event_urls full_url)
     else scan_links verbose rest event_urls).
Proof. done. Qed.

Lemma scan_links_clean (verbose : bool) (event_links : list node)
  (event_urls r : list str) (t t' : list event) :
  clean_urls event_urls →
  scan_links verbose event_links event_urls t = (Ok r, t') →
  clean_urls r.
Proof.
  revert event_urls t. induction event_links as [|link rest IH];
    intros event_urls t Hclean.
  - by intros [= <- _].
  - rewrite scan_links_unfold.
    intros (href & t1 & _ & Hrun)%bind_inv.
    destruct (PyStr.contains href (py "/event/")); [|by eapply IH].
    apply bind_inv in Hrun as (_ & t2 & _ & Hrun).
    apply bind_inv in Hrun as (full_url & t3 & _ & Hrun).
    eapply IH; [|exact Hrun]. by apply append_new_clean.
Qed.

Lemma scan_page_clean (verbose : bool) (status_code : Z) (soup : node)
  (event_urls r : list str) (t t' : list event) :
  clean_urls event_urls →
  scan_page verbose status_code soup event_urls t = (Ok r, t') →
  clean_urls r.
Proof.
  intros Hclean. unfold scan_page.
  intros (_ & t1 & _ & Hrun)%bind_inv.
  apply bind_inv in Hrun as (_ & t2 & _ & Hrun).
  apply bind_inv in Hrun as (urls & t3 & Hscan & Hrun).
  apply bind_inv in Hrun as (_ & t4 & _ & [= <- _]).
  by eapply scan_links_clean.
Qed.

Lemma event_urls_attempts_unfold (url : str) (verbose : bool) (attempt : nat)
  (rest : list nat) (event_urls : list str) :
  event_urls_attempts url verbose (attempt :: rest) event_urls
  = (when verbose
       (print (py "  Fetching: " ++ url ++ py " (attempt "
               ++ PyStr.of_nat (attempt + 1) ++ py "/"
               ++ PyStr.of_nat max_retries ++ py ")"));;
     response ← http_get url;
     match response with
     | Response status_code content =>
         if (status_code =? 200)%Z then
           scan_page verbose status_code content event_urls
         else
           eprint (py "  Status " ++ PyStr.of_Z status_code ++ py " for " ++ url
                   ++ py ", retrying in 5 seconds...");;
           (if attempt <? max_retries - 1 then sleep 5
            else eprint (py "  Failed after " ++ PyStr.of_nat max_retries
                         ++ py " attempts"));;
           event_urls_attempts url verbose rest event_urls
     | RequestException e repr =>
         eprint (py "Error fetching " ++ url ++ py ": " ++ e);;
         when verbose (print (py "  Full error: " ++ repr));;
         (if attempt <? max_retries - 1 then
            eprint (py "  Retrying in 5 seconds...");;
            sleep 5
          else eprint (py "  Failed after " ++ PyStr.of_nat max_retries
                       ++ py " attempts"));;
         event_urls_attempts url verbose rest event_urls
     end).
Proof. done. Qed.

Lemma event_urls_attempts_clean (url : str) (verbose : bool)
  (attempts : list nat) (event_urls r : list str) (t t' : list event) :
  clean_urls event_urls →
  event_urls_attempts url verbose attempts event_urls t = (Ok r, t') →
  clean_urls r.
Proof.
  intros Hclean. revert t. induction attempts as [|attempt rest IH]; intros t.
  - by intros [= <- _].
  - rewrite event_urls_attempts_unfold.
    intros (_ & t1 & _ & Hrun)%bind_inv.
    apply bind_inv in Hrun as (response & t2 & _ & Hrun).
    destruct response as [status_code content|e repr].
    + destruct (status_code =? 200)%Z; [by eapply scan_page_clean|].
      apply bind_inv in Hrun as (_ & t3 & _ & Hrun).
      apply bind_inv in Hrun as (_ & t4 & _ & Hrun). by eapply IH.
    + apply bind_inv in Hrun as (_ & t3 & _ & Hrun).
      apply bind_inv in Hrun as (_ & t4 & _ & Hrun).
      apply bind_inv in Hrun as (_ & t5 & _ & Hrun). by eapply IH.
Qed.

Lemma get_event_urls_from_page_clean (url : str) (verbose : bool)
  (r : list str) (t t' : list event) :
  get_event_urls_from_page url verbose t = (Ok r, t') → clean_urls r.
Proof. apply event_urls_attempts_clean, clean_urls_nil. Qed.

End ExtractorFacts.

(** ** The extractor returns *)

Section ExtractorReturns.
Context {U : Unicode} {E : Env}.
Hypothesis urljoin_ok : ∀ base href, ∃ u, urljoin base href = Ok u.

Lemma find_all_href (names : list str) (class_ : option (str -> bool))
  (n : node) :
  Forall (fun link => ∃ h, get_href link = Ok h) (find_all names class_ true n).
Proof.
  apply Forall_forall. intros link [Hlink _]%list_elem_of_filter.
  apply andb_prop in Hlink as [_ Hhref]. simpl in Hhref.
  destruct link as [name a children|text]; [|done].
  apply bool_decide_eq_true in Hhref as [h Hh]. exists h. simpl. by rewrite Hh.
Qed.

Lemma event_links_of_href (soup : node) :
  Forall (fun link => ∃ h, get_href link = Ok h) (event_links_of soup).
Proof.
  unfold event_links_of. apply Forall_app. split; [|apply find_all_href].
  apply Forall_forall. intros link (card & Hlink & _)%list_elem_of_bind.
  revert link Hlink. apply Forall_forall, find_all_href.
Qed.

Lemma scan_links_returns (verbose : bool) (event_links : list node)
  (event_urls : list str) (t : list event) :
  Forall (fun link => ∃ h, get_href link = Ok h) event_links →
  ∃ r t', scan_links verbose event_links event_urls t = (Ok r, t').
Proof.
  intros Hlinks. revert event_urls t.
  induction Hlinks as [|link rest [h Hh] _ IH]; intros event_urls t.
  - by eexists _, _.
  - rewrite scan_links_unfold, Hh. unfold mbind, M_bind, lift, when, print, emit.
    destruct (PyStr.contains h (py "/event/")); [|apply IH].
    destruct (urljoin_ok BASE_URL h) as [u ->].
    destruct verbose; apply IH.
Qed.

Lemma scan_page_returns (verbose : bool) (status_code : Z) (soup : node)
  (event_urls : list str) (t : list event) :
  ∃ r t', scan_page verbose status_code soup event_urls t = (Ok r, t').
Proof.
  unfold scan_page, mbind, M_bind, when, print, emit, mret, M_ret.
  destruct verbose; cbn beta iota;
    match goal with
    | |- context [scan_links ?v ?l ?u ?h] =>
        destruct (scan_links_returns v l u h (event_links_of_href soup))
          as (r & t' & ->)
    end; by eexists _, _.
Qed.

(** With a [urljoin] that does not raise, the extractor returns a list on
    every page and every history of replies. *)
Lemma get_event_urls_from_page_returns (url : str) (verbose : bool)
  (t : list event) :
  ∃ r t', get_event_urls_from_page url verbose t = (Ok r, t').
Proof.
  unfold get_event_urls_from_page. generalize (seq 0 max_retries) (@nil str).
  intros attempts. revert t.
  induction attempts as [|attempt rest IH]; intros t event_urls.
  - by eexists _, _.
  - rewrite event_urls_attempts_unfold.
    unfold mbind, M_bind, when, http_get, print, eprint, sleep, emit, mret, M_ret.
    destruct verbose; cbn beta iota;
      match goal with
      | |- context [requests_get ?h url] =>
          destruct (requests_get h url) as [status_code content|e repr]
      end;
      try destruct (status_code =? 200)%Z; try apply scan_page_returns;
      destruct (attempt <? max_retries - 1); apply IH.
Qed.

End ExtractorReturns.

(** C3.  Whatever the page and its links, every URL the extractor returns
    ends in [/lineup] and holds no question mark, so no query string, and
    the returned list has no URL twice.  The extractor does return a list
    whenever [urljoin] raises on none of the links. *)
Theorem event_urls_are_canonical_and_unique {U : Unicode} {E : Env}
  (url : str) (verbose : bool) (t : list event) :
  (∀ event_urls t',
      get_event_urls_from_page url verbose t = (Ok event_urls, t') →
      Forall (fun u => PyStr.endswith u (py "/lineup") = true ∧ 63%N ∉ u)
             event_urls
      ∧ NoDup event_urls)
  ∧ ((∀ base href, ∃ u, urljoin base href = Ok u) →
     ∃ event_urls t',
       get_event_urls_from_page url verbose t = (Ok event_urls, t')).
Proof.
  split.
  - intros event_urls t'. apply get_event_urls_from_page_clean.
  - intros Hjoin. by apply get_event_urls_from_page_returns.
Qed.

(** [urljoin] of the sample environments never raises. *)
Lemma join_path_ok (base href : str) : ∃ u, Sample.join_path base href = Ok u.
Proof. unfold Sample.join_path. destruct (PyStr.startswith _ _); by eexists. Qed.

Lemma event_urls_are_canonical_and_unique_witness :
  (∃ event_urls t',
      get_event_urls_from_page (U:=Latin1.tables) (E:=Sample.online)
        (py "https://www.last.fm/user/alice/events") false []
      = (Ok event_urls, t'))
  ∧ (∃ t',
        get_event_urls_from_page (U:=Latin1.tables) (E:=Sample.online)
          (py "https://www.last.fm/user/alice/events") false []
        = (Ok [py "https://www.last.fm/event/123/lineup"], t')
        ∧ NoDup [py "https://www.last.fm/event/123/lineup"]).
Proof.
  split.
  - exact (proj2 (event_urls_are_canonical_and_unique (U:=Latin1.tables)
                    (E:=Sample.online) _ _ _) join_path_ok).
  - eexists.
    refine ((fun Hrun =>
               conj Hrun
                 (proj2 (proj1 (event_urls_are_canonical_and_unique
                                  (U:=Latin1.tables) (E:=Sample.online) _ _ _)
                           _ _ Hrun))) _).
    vm_compute. reflexivity.
Defined.

(** ** Retries *)

Section RetryFacts.
Context {U : Unicode} {E : Env}.

(** One failed attempt of the listing fetcher: a request, a pause unless the
    attempt is the last, a line on the error stream, and on to the next. *)
Lemma event_urls_attempt_failed (url : str) (verbose : bool) (attempt : nat)
  (rest : list nat) (event_urls : list str) (t : list event) :
  (∀ h, failed (requests_get h url)) →
  ∃ d,
    event_urls_attempts url verbose (attempt :: rest) event_urls t
    = event_urls_attempts url verbose rest event_urls (t ++ d)
    ∧ network_view d
      = Get url :: (if attempt <? max_retries - 1 then [Sleep 5] else [])
    ∧ Exists is_stderr d.
Proof.
  intros Hfail. rewrite event_urls_attempts_unfold.
  unfold mbind, M_bind, when, http_get, print, eprint, sleep, emit, mret, M_ret.
  set (h := if verbose then _ else _).
  assert (∃ d0, h t = (Ok (), t ++ d0) ∧ network_view d0 = []) as (d0 & -> & Hd0).
  { subst h. destruct verbose.
    - eexists [_]. done.
    - exists []. by rewrite app_nil_r. }
  specialize (Hfail (t ++ d0)).
  destruct (requests_get (t ++ d0) url) as [status_code content|e repr].
  - simpl in Hfail. apply Z.eqb_neq in Hfail. rewrite Hfail.
    destruct (attempt <? max_retries - 1); close_attempt d0 Hd0.
  - destruct verbose, (attempt <? max_retries - 1); close_attempt d0 Hd0.
Qed.

Lemma artists_attempts_unfold (event_url : str) (verbose : bool)
  (attempt : nat) (rest : list nat) (artists : gset str) :
  artists_attempts event_url verbose (attempt :: rest) artists
  = (response ← http_get event_url;
     match response with
     | Response status_code content =>
         if (status_code =? 200)%Z then
           let artists := scan_lineup content artists in
           when (verbose && is_empty_set artists)
             (print (LF ++ py "  Warning: No artists found for " ++ event_url));;
           mret artists
         else
           when (verbose || (attempt =? max_retries - 1))
             (eprint (LF ++ py "  Status " ++ PyStr.of_Z status_code ++ py " for "
                      ++ event_url ++ py ", retrying in 5 seconds..."));;
           (if attempt <? max_retries - 1 then sleep 5
            else eprint (py "  Failed after " ++ PyStr.of_nat max_retries
                         ++ py " attempts"));;
           artists_attempts event_url verbose rest artists
     | RequestException e repr =>
         when (verbose || (attempt =? max_retries - 1))
           (eprint (LF ++ py "Error fetching event " ++ event_url ++ py ": " ++ e));;
         when verbose (print (py "  Full error: " ++ repr));;
         (if attempt <? max_retries - 1 then
            when verbose (eprint (py "  Retrying in 5 seconds..."));;
            sleep 5
          else when verbose
                 (eprint (py "  Failed after " ++ PyStr.of_nat max_retries
                          ++ py " attempts")));;
         artists_attempts event_url verbose rest artists
     end).
Proof. done. Qed.

(** One failed attempt of the lineup fetcher.  It is silent on the error
    stream before the last attempt unless [verbose] is set. *)
Lemma artists_attempt_failed (event_url : str) (verbose : bool) (attempt : nat)
  (rest : list nat) (artists : gset str) (t : list event) :
  (∀ h, failed (requests_get h event_url)) →
  ∃ d,
    artists_attempts event_url verbose (attempt :: rest) artists t
    = artists_attempts event_url verbose rest artists (t ++ d)
    ∧ network_view d
      = Get event_url :: (if attempt <? max_retries - 1 then [Sleep 5] else [])
    ∧ (attempt = max_retries - 1 → Exists is_stderr d).
Proof.
  intros Hfail. rewrite artists_attempts_unfold.
  unfold mbind, M_bind, when, http_get, print, eprint, sleep, emit, mret, M_ret.
  specialize (Hfail t).
  assert (network_view [] = []) as Hnil by done.
  destruct (requests_get t event_url) as [status_code content|e repr].
  - simpl in Hfail. apply Z.eqb_neq in Hfail. rewrite Hfail.
    destruct (Nat.eqb_spec attempt (max_retries - 1)) as [->|Hne].
    + rewrite orb_true_r. simpl. rewrite <- !app_assoc. eexists.
      split; [reflexivity|]. split; [reflexivity|]. intros _.
      repeat first [apply Exists_cons_hd; exact I | apply Exists_cons_tl].
    + destruct verbose, (attempt <? max_retries - 1); simpl;
        rewrite <- ?app_assoc; eexists; (split; [reflexivity|]);
        (split; [reflexivity|done]).
  - destruct (Nat.eqb_spec attempt (max_retries - 1)) as [->|Hne].
    + rewrite orb_true_r. destruct verbose; simpl; rewrite <- !app_assoc;
        eexists; (split; [reflexivity|]); (split; [reflexivity|]); intros _;
        repeat first [apply Exists_cons_hd; exact I | apply Exists_cons_tl].
    + destruct verbose, (attempt <? max_retries - 1); simpl;
        rewrite <- ?app_assoc; eexists; (split; [reflexivity|]);
        (split; [reflexivity|done]).
Qed.

End RetryFacts.

(** C5.  When every request for a URL fails, by a status other than 200 or
    by a network exception, both fetchers make exactly three requests with a
    pause of 5 seconds between consecutive ones, so two pauses, write to the
    error stream, and return the empty result, an empty list or an empty set,
    without raising. *)
Theorem fetchers_give_up_after_three_attempts {U : Unicode} {E : Env}
  (url : str) (verbose : bool) (t : list event) :
  (∀ h, failed (requests_get h url)) →
  (∃ d, get_event_urls_from_page url verbose t = (Ok [], t ++ d)
        ∧ network_view d = [Get url; Sleep 5; Get url; Sleep 5; Get url]
        ∧ Exists is_stderr d)
  ∧ (∃ d, get_artists_from_event url verbose t = (Ok ∅, t ++ d)
          ∧ network_view d = [Get url; Sleep 5; Get url; Sleep 5; Get url]
          ∧ Exists is_stderr d).
Proof.
  intros Hfail. split.
  - unfold get_event_urls_from_page. change (seq 0 max_retries) with [0; 1; 2].
    destruct (event_urls_attempt_failed url verbose 0 [1; 2] [] t Hfail)
      as (d0 & -> & Hn0 & _).
    destruct (event_urls_attempt_failed url verbose 1 [2] [] (t ++ d0) Hfail)
      as (d1 & -> & Hn1 & _).
    destruct (event_urls_attempt_failed url verbose 2 [] [] ((t ++ d0) ++ d1) Hfail)
      as (d2 & -> & Hn2 & Herr).
    exists (d0 ++ d1 ++ d2). split; [by rewrite !app_assoc|].
    split; [by rewrite !network_view_app, Hn0, Hn1, Hn2|].
    apply Exists_app. right. apply Exists_app. by right.
  - unfold get_artists_from_event. change (seq 0 max_retries) with [0; 1; 2].
    destruct (artists_attempt_failed url verbose 0 [1; 2] ∅ t Hfail)
      as (d0 & -> & Hn0 & _).
    destruct (artists_attempt_failed url verbose 1 [2] ∅ (t ++ d0) Hfail)
      as (d1 & -> & Hn1 & _).
    destruct (artists_attempt_failed url verbose 2 [] ∅ ((t ++ d0) ++ d1) Hfail)
      as (d2 & -> & Hn2 & Herr).
    exists (d0 ++ d1 ++ d2). split; [by rewrite !app_assoc|].
    split; [by rewrite !network_view_app, Hn0, Hn1, Hn2|].
    apply Exists_app. right. apply Exists_app. right. by apply Herr.
Qed.

Lemma fetchers_give_up_after_three_attempts_witness :
  (∀ h, failed (requests_get (Env:=Sample.unavailable) h (py "https://www.last.fm/event/123/lineup")))
  ∧ (∃ d, get_artists_from_event (E:=Sample.unavailable)
            (py "https://www.last.fm/event/123/lineup") false [] = (Ok ∅, [] ++ d)
          ∧ network_view d
            = [Get (py "https://www.last.fm/event/123/lineup"); Sleep 5;
               Get (py "https://www.last.fm/event/123/lineup"); Sleep 5;
               Get (py "https://www.last.fm/event/123/lineup")]
          ∧ Exists is_stderr d).
Proof.
  assert (∀ h, failed (requests_get (Env:=Sample.unavailable) h
                         (py "https://www.last.fm/event/123/lineup"))) as Hfail
    by (intros h; simpl; lia).
  split; [exact Hfail|].
  exact (proj2 (fetchers_give_up_after_three_attempts (U:=Latin1.tables)
                  (E:=Sample.unavailable) _ false [] Hfail)).
Defined.

(** ** The artist extractor *)

Section ArtistFacts.
Context {E : Env}.

Lemma add_artist_names (artists : gset str) (link : node) :
  add_artist artists link = artists ∪ names_of [link].
Proof.
  unfold add_artist, names_of. simpl. rewrite filter_cons, filter_nil.
  destruct (decide (nonempty (get_text link) = true)) as [Hn|Hn].
  - rewrite Hn. set_solver.
  - apply not_true_is_false in Hn. rewrite Hn. set_solver.
Qed.

Lemma names_of_cons (link : node) (links : list node) :
  names_of (link :: links) = names_of [link] ∪ names_of links.
Proof.
  unfold names_of. simpl. rewrite !filter_cons, filter_nil.
  destruct (decide (nonempty (get_text link) = true)); set_solver.
Qed.

Lemma foldl_add_artist (links : list node) (artists : gset str) :
  foldl add_artist artists links = artists ∪ names_of links.
Proof.
  revert artists. induction links as [|link links IH]; intros artists; simpl.
  - unfold names_of. simpl. set_solver.
  - rewrite IH, add_artist_names, (names_of_cons link links). set_solver.
Qed.


Lemma scan_lineup_union (soup : node) (artists : gset str) :
  scan_lineup soup artists
  = artists ∪ names_of (artist_links soup) ∪ names_of (artist_headings soup)
    ∪ names_of (lineup_links soup).
Proof. unfold scan_lineup. by rewrite !foldl_add_artist. Qed.




(** A successful first attempt returns what the three loops collect. *)
Lemma get_artists_from_event_ok (event_url : str) (verbose : bool)
  (t : list event) (soup : node) :
  requests_get t event_url = Response 200 soup →
  ∃ d, get_artists_from_event event_url verbose t
       = (Ok (scan_lineup soup ∅), t ++ Get event_url :: d)
       ∧ Forall is_stdout d.
Proof.
  intros Hreply. unfold get_artists_from_event.
  change (seq 0 max_retries) with [0; 1; 2]. rewrite artists_attempts_unfold.
  unfold mbind, M_bind, when, http_get, print, emit, mret, M_ret.
  rewrite Hreply. simpl.
  destruct (verbose && is_empty_set (scan_lineup soup ∅)).
  - eexists [_]. rewrite <- app_assoc. split; [done|]. by repeat constructor.
  - by exists [].
Qed.

End ArtistFacts.



(** ** The crawl *)

Section MergeFacts.

Lemma filter_ext_elem {A} (P Q : A -> Prop) `{∀ x, Decision (P x)}
  `{∀ x, Decision (Q x)} (l : list A) :
  (∀ x, x ∈ l → P x ↔ Q x) → filter P l = filter Q l.
Proof.
  induction l as [|x l IH]; intros Hext; [done|].
  rewrite !filter_cons.
  rewrite IH by (intros y Hy; apply Hext; by right).
  destruct (decide (P x)) as [HP|HP], (decide (Q x)) as [HQ|HQ]; try done;
    exfalso; apply (Hext x) in HP || apply (Hext x) in HQ; try done; by left.
Qed.

Lemma foldl_append_new (page acc : list str) :
  NoDup page → foldl append_new acc page = merge_page acc page.
Proof.
  unfold merge_page. intros Hnd. revert acc.
  induction Hnd as [|x page Hx Hnd IH]; intros acc; simpl.
  - by rewrite app_nil_r.
  - rewrite IH, filter_cons. unfold append_new.
    case_bool_decide as Hin.
    + by rewrite decide_False by (by intros ?).
    + rewrite decide_True by done. rewrite <- app_assoc. simpl. do 2 f_equal.
      apply filter_ext_elem. intros y Hy. rewrite not_elem_of_app.
      split; [by intros [? _]|]. intros Hacc. split; [done|].
      intros ->%list_elem_of_singleton. done.
Qed.

Lemma foldl_merge_page (pages : list (list str)) (acc : list str) :
  Forall NoDup pages →
  foldl merge_page acc pages = foldl append_new acc (concat pages).
Proof.
  intros Hnd. revert acc.
  induction Hnd as [|page pages Hpage _ IH]; intros acc; [done|].
  cbn [foldl concat]. by rewrite foldl_app, IH, (foldl_append_new page acc).
Qed.

Lemma append_new_NoDup (acc : list str) (x : str) :
  NoDup acc → NoDup (append_new acc x).
Proof.
  intros Hnd. unfold append_new. case_bool_decide; [done|].
  apply NoDup_app. split; [done|]. split; [|apply NoDup_singleton].
  by intros y Hy ->%list_elem_of_singleton.
Qed.

Lemma foldl_append_new_NoDup (l acc : list str) :
  NoDup acc → NoDup (foldl append_new acc l).
Proof.
  revert acc. induction l as [|x l IH]; intros acc Hnd; simpl; [done|].
  by apply IH, append_new_NoDup.
Qed.

Lemma elem_of_append_new (acc : list str) (x y : str) :
  y ∈ append_new acc x ↔ y ∈ acc ∨ y = x.
Proof.
  unfold append_new. case_bool_decide as Hin.
  - split; [by left|]. by intros [?| ->].
  - by rewrite elem_of_app, list_elem_of_singleton.
Qed.

Lemma elem_of_foldl_append_new (l acc : list str) (y : str) :
  y ∈ foldl append_new acc l ↔ y ∈ acc ∨ y ∈ l.
Proof.
  revert acc. induction l as [|x l IH]; intros acc; simpl.
  - rewrite elem_of_nil. tauto.
  - rewrite IH, elem_of_append_new, elem_of_cons. tauto.
Qed.

Lemma first_seen_NoDup (l : list str) : NoDup (first_seen l).
Proof. apply foldl_append_new_NoDup. constructor. Qed.

Lemma elem_of_first_seen (l : list str) (y : str) : y ∈ first_seen l ↔ y ∈ l.
Proof. unfold first_seen. rewrite elem_of_foldl_append_new, elem_of_nil. tauto. Qed.

(** A list without repetition is its own first-seen order. *)
Lemma first_seen_id (l : list str) : NoDup l → first_seen l = l.
Proof.
  intros Hnd. unfold first_seen. rewrite foldl_append_new by done.
  unfold merge_page. simpl. clear Hnd.
  induction l as [|x l IH]; [done|].
  rewrite filter_cons, decide_True by apply not_elem_of_nil. by rewrite IH.
Qed.

Lemma elem_of_concat (u : str) (pages : list (list str)) :
  u ∈ concat pages ↔ ∃ page, page ∈ pages ∧ u ∈ page.
Proof.
  induction pages as [|p pages IH]; simpl.
  - rewrite elem_of_nil. split; [done|]. by intros (? & ?%elem_of_nil & _).
  - rewrite elem_of_app, IH. split.
    + intros [Hu|(page & Hp & Hu)]; [exists p|exists page];
        (split; [|done]); [by left|by right].
    + intros (page & [->|Hp]%elem_of_cons & Hu); [by left|right; eauto].
Qed.

Lemma elem_of_range (a b z : Z) : z ∈ range a b ↔ (a ≤ z < b)%Z.
Proof.
  unfold range. rewrite list_elem_of_fmap. split.
  - intros (i & -> & Hi%elem_of_seq). lia.
  - intros Hz. exists (Z.to_nat (z - a)). rewrite elem_of_seq. lia.
Qed.

Lemma range_ascending (a b : Z) : StronglySorted Z.lt (range a b).
Proof.
  unfold range. generalize (Z.to_nat (b - a)). intros n.
  generalize 0. induction n as [|n IH]; intros k; simpl; constructor.
  - apply IH.
  - apply Forall_forall. intros z (i & -> & Hi%elem_of_seq)%list_elem_of_fmap.
    lia.
Qed.

End MergeFacts.

Section CrawlFacts.
Context {U : Unicode} {E : Env}.

Lemma year_pages_unfold (username : str) (verbose : bool) (year : Z)
  (rest : list Z) (all_event_urls : list str) :
  year_pages username verbose (year :: rest) all_event_urls
  = (print (py "Fetching events from " ++ PyStr.of_Z year ++ py "...");;
     event_urls ← get_event_urls_from_page (year_url username year) verbose;
     let new_urls := filter (fun url => url ∉ all_event_urls) event_urls in
     let all_event_urls := all_event_urls ++ new_urls in
     print (py "Found " ++ PyStr.of_nat (length new_urls)
            ++ py " new events in " ++ PyStr.of_Z year);;
     sleep 1;;
     year_pages username verbose rest all_event_urls).
Proof. done. Qed.

Lemma year_pages_inv (username : str) (verbose : bool) (years : list Z)
  (all_event_urls urls : list str) (t t' : list event) :
  year_pages username verbose years all_event_urls t = (Ok urls, t') →
  ∃ pages,
    Forall2 (fun year page => extracted verbose (year_url username year) page)
            years pages
    ∧ urls = foldl merge_page all_event_urls pages.
Proof.
  revert all_event_urls t. induction years as [|year rest IH];
    intros all_event_urls t.
  - intros [= <- _]. exists []. split; [constructor|done].
  - rewrite year_pages_unfold.
    intros (_ & t1 & _ & Hrun)%bind_inv.
    apply bind_inv in Hrun as (page & t2 & Hpage & Hrun).
    apply bind_inv in Hrun as (_ & t3 & _ & Hrun).
    apply bind_inv in Hrun as (_ & t4 & _ & Hrun).
    apply IH in Hrun as (pages & Hpages & ->).
    exists (page :: pages). split; [|done].
    constructor; [|done]. by exists t1, t2.
Qed.

Lemma get_all_event_urls_inv (username : str) (start_year end_year : Z)
  (verbose : bool) (urls : list str) (t t' : list event) :
  get_all_event_urls username start_year end_year verbose t = (Ok urls, t') →
  ∃ pages,
    Forall2 (extracted verbose) (listing_pages username start_year end_year) pages
    ∧ Forall NoDup pages
    ∧ urls = first_seen (concat pages).
Proof.
  unfold get_all_event_urls.
  intros (_ & t1 & _ & Hrun)%bind_inv.
  apply bind_inv in Hrun as (page & t2 & Hpage & Hrun).
  apply bind_inv in Hrun as (_ & t3 & _ & Hrun).
  apply bind_inv in Hrun as (_ & t4 & _ & Hrun).
  apply year_pages_inv in Hrun as (pages & Hpages & ->).
  assert (Forall NoDup (page :: pages)) as Hnd.
  { constructor; [by apply get_event_urls_from_page_clean in Hpage as [_ ?]|].
    clear -Hpages. induction Hpages as [|year p years ps (t1 & t2 & Hp) _ IH];
      constructor; [|done].
    by apply get_event_urls_from_page_clean in Hp as [_ ?]. }
  exists (page :: pages). split.
  { unfold listing_pages. constructor; [by exists t1, t2|].
    by apply Forall2_fmap_l. }
  split; [done|].
  apply Forall_cons in Hnd as [Hpage_nd Hpages_nd].
  rewrite foldl_merge_page by done.
  unfold first_seen. simpl. rewrite foldl_app.
  fold (first_seen page). by rewrite first_seen_id.
Qed.

End CrawlFacts.

Section CrawlReturns.
Context {U : Unicode} {E : Env}.
Hypothesis urljoin_ok : ∀ base href, ∃ u, urljoin base href = Ok u.

Lemma year_pages_returns (username : str) (verbose : bool) (years : list Z)
  (all_event_urls : list str) (t : list event) :
  ∃ urls t', year_pages username verbose years all_event_urls t = (Ok urls, t').
Proof.
  revert all_event_urls t. induction years as [|year rest IH];
    intros all_event_urls t.
  - by eexists _, _.
  - rewrite year_pages_unfold. unfold mbind, M_bind, print, sleep, emit.
    match goal with
    | |- context [get_event_urls_from_page ?u ?v ?h] =>
        destruct (get_event_urls_from_page_returns urljoin_ok u v h)
          as (page & t1 & ->)
    end.
    apply IH.
Qed.

(** With a [urljoin] that does not raise, the crawl returns a list for every
    user and every pair of years. *)
Lemma get_all_event_urls_returns (username : str) (start_year end_year : Z)
  (verbose : bool) (t : list event) :
  ∃ urls t',
    get_all_event_urls username start_year end_year verbose t = (Ok urls, t').
Proof.
  unfold get_all_event_urls, mbind, M_bind, print, sleep, emit.
  match goal with
  | |- context [get_event_urls_from_page ?u ?v ?h] =>
      destruct (get_event_urls_from_page_returns urljoin_ok u v h)
        as (page & t1 & ->)
  end.
  apply year_pages_returns.
Qed.

End CrawlReturns.

(** C7.  For every user name and every pair of years, the list the
    orchestrator returns is made of the lists the extractor returned for the
    main listing page and then for the page of every year from [start_year]
    to [end_year], both included, in ascending order; a URL is added only
    when the list so far does not hold it, so the result is these lists
    concatenated with every URL kept at its first occurrence only, and holds
    no URL twice.  The orchestrator does return a list whenever [urljoin]
    raises on none of the links. *)
Theorem crawl_merges_pages_in_order {U : Unicode} {E : Env}
  (username : str) (start_year end_year : Z) (verbose : bool)
  (t : list event) :
  (∀ urls t',
      get_all_event_urls username start_year end_year verbose t = (Ok urls, t') →
      (∃ pages,
          Forall2 (extracted verbose)
                  (listing_pages username start_year end_year) pages
          ∧ urls = first_seen (concat pages)
          ∧ urls = foldl merge_page [] pages
          ∧ (∀ u, u ∈ urls ↔ ∃ page, page ∈ pages ∧ u ∈ page))
      ∧ NoDup urls)
  ∧ StronglySorted Z.lt (range start_year (end_year + 1))
  ∧ (∀ year, year ∈ range start_year (end_year + 1)
             ↔ (start_year ≤ year ≤ end_year)%Z)
  ∧ ((∀ base href, ∃ u, urljoin base href = Ok u) →
     ∃ urls t',
       get_all_event_urls username start_year end_year verbose t = (Ok urls, t')).
Proof.
  split; [|split; [apply range_ascending|split]].
  - intros urls t' (pages & Hpages & Hnd & ->)%get_all_event_urls_inv.
    split; [|apply first_seen_NoDup].
    exists pages. split; [done|]. split; [done|].
    split; [by rewrite foldl_merge_page|].
    intros u. rewrite elem_of_first_seen. apply elem_of_concat.
  - intros year. rewrite elem_of_range. lia.
  - intros Hjoin. by apply get_all_event_urls_returns.
Qed.

Lemma crawl_merges_pages_in_order_witness :
  (∃ urls t',
      get_all_event_urls (U:=Latin1.tables) (E:=always_up) (py "alice")
        2023 2024 false []
      = (Ok urls, t'))
  ∧ (∃ t',
        get_all_event_urls (U:=Latin1.tables) (E:=always_up) (py "alice")
          2023 2024 false []
        = (Ok [py "https://www.last.fm/event/123/lineup"], t')
        ∧ NoDup [py "https://www.last.fm/event/123/lineup"]).
Proof.
  split.
  - exact (proj2 (proj2 (proj2 (crawl_merges_pages_in_order (U:=Latin1.tables)
                                  (E:=always_up) _ _ _ _ _)))
             join_path_ok).
  - eexists.
    refine ((fun Hrun =>
               conj Hrun
                 (proj2 (proj1 (crawl_merges_pages_in_order (U:=Latin1.tables)
                                  (E:=always_up) _ _ _ _ _)
                           _ _ Hrun))) _).
    vm_compute. reflexivity.
Defined.

(** ** The main program *)

Section MainFacts.
Context {U : Unicode} {E : Env}.

Lemma banner_run (t : list event) (e1 e2 e3 : event) :
  ((t ++ [e1]) ++ [e2]) ++ [e3] = t ++ [e1; e2; e3].
Proof. by rewrite <- !app_assoc. Qed.

(** Every call of the artist extractor starts with a request for its URL,
    whatever the replies. *)
Lemma artists_attempts_requests (event_url : str) (verbose : bool)
  (attempts : list nat) (artists : gset str) (t : list event) :
  ∃ r d, artists_attempts event_url verbose attempts artists t = (r, t ++ d)
         ∧ (attempts ≠ [] → ∃ d', d = Get event_url :: d').
Proof.
  revert t. induction attempts as [|attempt rest IH]; intros t.
  - exists (Ok artists), []. by rewrite app_nil_r.
  - rewrite artists_attempts_unfold.
    unfold mbind, M_bind, when, http_get, print, eprint, sleep, emit, mret, M_ret.
    destruct (requests_get t event_url) as [status_code content|e repr];
      [destruct (status_code =? 200)%Z|];
      destruct verbose, (attempt =? max_retries - 1),
        (attempt <? max_retries - 1); cbn [orb andb];
      try destruct (is_empty_set _); cbn beta iota;
      try continue_with IH;
      rewrite <- ?app_assoc; eexists _, _; (split; [reflexivity|]);
      intros _; eexists; reflexivity.
Qed.

Lemma get_artists_from_event_requests (event_url : str) (verbose : bool)
  (t : list event) :
  ∃ r d, get_artists_from_event event_url verbose t = (r, t ++ Get event_url :: d).
Proof.
  destruct (artists_attempts_requests event_url verbose (seq 0 max_retries) ∅ t)
    as (r & d & Hrun & Hd).
  destruct Hd as [d' ->]; [done|]. by exists r, d'.
Qed.

End MainFacts.

(** C9.  When the crawl finds no event URL, [main] prints the line "No events
    found for user: ..." and leaves through [sys.exit(0)]; after the crawl it
    only prints, so it makes no request, and the artist extractor, which
    starts every call with a request, is never called. *)
Theorem no_events_exits_cleanly {U : Unicode} {E : Env}
  (a : args) (t t1 : list event) :
  get_all_event_urls (username a) (start_year a) (end_year a) (verbose a)
    (t ++ banner a) = (Ok [], t1) →
  ∃ out,
    main a t = (Raise (SystemExit 0), t1 ++ out)
    ∧ Forall is_stdout out
    ∧ last out = Some (Stdout ((py "No events found for user: " ++ username a) ++ LF))
    ∧ requests_of (t1 ++ out) = requests_of t1
    ∧ (∀ event_url v h,
          ∃ r d, get_artists_from_event event_url v h
                 = (r, h ++ Get event_url :: d)).
Proof.
  intros Hcrawl. unfold main, mbind, M_bind, print, emit.
  rewrite banner_run. fold (banner a). rewrite Hcrawl. cbv beta iota.
  destruct (verbose a); cbn [when take for_each length Nat.ltb Nat.leb
                             mbind M_bind mret M_ret bool_decide decide_rel];
    unfold mbind, M_bind, mret, M_ret, sys_exit, lift; cbn beta iota;
    rewrite bool_decide_eq_true_2 by done; cbv beta iota;
    rewrite <- !app_assoc; eexists; (split; [reflexivity|]);
    (assert (∀ out, Forall is_stdout out →
                    requests_of (t1 ++ out) = requests_of t1) as Hquiet
       by (intros out Hout;
           by rewrite requests_of_app, (requests_of_stdout out Hout), app_nil_r));
    (split; [by repeat constructor|]); (split; [done|]);
    (split; [apply Hquiet; by repeat constructor|]);
    apply get_artists_from_event_requests.
Qed.

Lemma no_events_exits_cleanly_witness :
  ∃ t1 out,
    get_all_event_urls (U:=Latin1.tables) (E:=Sample.unavailable)
      (py "alice") 2024 2023 false ([] ++ banner (Sample.alice 2024 2023 false))
    = (Ok [], t1)
    ∧ main (U:=Latin1.tables) (E:=Sample.unavailable)
        (Sample.alice 2024 2023 false) []
      = (Raise (SystemExit 0), t1 ++ out).
Proof.
  eexists.
  refine ((fun Hcrawl =>
             match no_events_exits_cleanly (U:=Latin1.tables)
                     (E:=Sample.unavailable) (Sample.alice 2024 2023 false)
                     [] _ Hcrawl with
             | ex_intro _ out (conj Hmain _) =>
                 ex_intro _ out (conj Hcrawl Hmain)
             end) _).
  vm_compute. reflexivity.
Defined.

(** ** Both harvesting loops run *)

Section HarvestFacts.
Context {U : Unicode} {E : Env}.
Hypothesis always_ok : ∀ h url, ∃ soup, requests_get h url = Response 200 soup.

Lemma harvest_unfold (verbose : bool) (total i : nat) (event_url : str)
  (rest : list (nat * str)) (all_artists : gset str) (failed_count : nat) :
  harvest verbose total ((i, event_url) :: rest) all_artists failed_count
  = ((if negb verbose then
        print_end (py "Processing event " ++ PyStr.of_nat i ++ py "/"
                   ++ PyStr.of_nat total ++ py "...") CR
      else
        print (LF ++ py "Processing event " ++ PyStr.of_nat i ++ py "/"
               ++ PyStr.of_nat total ++ py ": " ++ event_url));;
     artists ← get_artists_from_event event_url verbose;
     '(all_artists, failed_count) ←
       (if negb (is_empty_set artists) then
          when verbose
            (print (py "  Found " ++ PyStr.of_nat (size artists)
                    ++ py " artist(s): "
                    ++ PyStr.join (py ", ") (take 3 (set_iter artists))
                    ++ (if 3 <? size artists then py "..." else [])));;
          mret (all_artists ∪ artists, failed_count)
        else mret (all_artists, failed_count + 1));
     sleep (1 # 2);;
     harvest verbose total rest all_artists failed_count).
Proof. done. Qed.

Lemma harvest_again_unfold (total i : nat) (event_url : str)
  (rest : list (nat * str)) (all_artists : gset str) :
  harvest_again total ((i, event_url) :: rest) all_artists
  = (print_end (py "Processing event " ++ PyStr.of_nat i ++ py "/"
                ++ PyStr.of_nat total ++ py "...") CR;;
     artists ← get_artists_from_event event_url false;
     sleep (1 # 2);;
     harvest_again total rest (all_artists ∪ artists)).
Proof. done. Qed.

Lemma harvest_requests (verbose : bool) (total : nat) (items : list (nat * str))
  (all_artists : gset str) (failed_count : nat) (t : list event) :
  ∃ r d, harvest verbose total items all_artists failed_count t = (Ok r, t ++ d)
         ∧ requests_of d = items.*2.
Proof.
  revert all_artists failed_count t.
  induction items as [|[i event_url] rest IH]; intros all_artists failed_count t.
  - eexists _, []. by rewrite app_nil_r.
  - rewrite harvest_unfold.
    unfold mbind, M_bind, when, print, print_end, sleep, emit, mret, M_ret.
    destruct verbose; cbn [negb];
      match goal with
      | |- context [get_artists_from_event ?u ?v ?h] =>
          destruct (always_ok h u) as [soup Hreply];
          destruct (get_artists_from_event_ok u v h soup Hreply) as (d & -> & Hd);
          apply requests_of_stdout in Hd
      end;
      destruct (is_empty_set _); cbn [negb]; cbn beta iota;
      match goal with
      | |- context [harvest ?v ?n rest ?a ?f ?h] =>
          destruct (IH a f h) as (r & d' & -> & Hd')
      end;
      rewrite <- ?app_assoc; eexists _, _; (split; [reflexivity|]);
      autorewrite with history; rewrite Hd, Hd'; reflexivity.
Qed.

Lemma harvest_again_requests (total : nat) (items : list (nat * str))
  (all_artists : gset str) (t : list event) :
  ∃ r d, harvest_again total items all_artists t = (Ok r, t ++ d)
         ∧ requests_of d = items.*2.
Proof.
  revert all_artists t.
  induction items as [|[i event_url] rest IH]; intros all_artists t.
  - eexists _, []. by rewrite app_nil_r.
  - rewrite harvest_again_unfold.
    unfold mbind, M_bind, print_end, sleep, emit.
    match goal with
    | |- context [get_artists_from_event ?u ?v ?h] =>
        destruct (always_ok h u) as [soup Hreply];
        destruct (get_artists_from_event_ok u v h soup Hreply) as (d & -> & Hd);
        apply requests_of_stdout in Hd
    end.
    cbn beta iota.
    match goal with
    | |- context [harvest_again ?n rest ?a ?h] =>
        destruct (IH a h) as (r & d' & -> & Hd')
    end.
    rewrite <- ?app_assoc. eexists _, _. split; [reflexivity|].
    autorewrite with history. rewrite Hd, Hd'. reflexivity.
Qed.

Lemma enumerate1_snd {A} (l : list A) : (enumerate1 l).*2 = l.
Proof. unfold enumerate1. apply snd_zip. by rewrite length_seq. Qed.

(** X2.  When every lineup page answers with status 200 on the first
    request, the artist stage of [main] requests every event URL in crawl
    order, and then requests every one of them a second time. *)
Lemma every_event_is_requested_twice (verbose : bool) (event_urls : list str)
  (t : list event) :
  ∃ all_artists d,
    extract_artists verbose event_urls t = (Ok all_artists, t ++ d)
    ∧ requests_of d = event_urls ++ event_urls.
Proof.
  unfold extract_artists, mbind, M_bind, when, print, emit, mret, M_ret.
  match goal with
  | |- context [harvest ?v ?n ?l ?a ?f ?h] =>
      destruct (harvest_requests v n l a f h) as ([artists failed] & d1 & -> & Hd1)
  end.
  destruct verbose; cbn beta iota;
    match goal with
    | |- context [harvest_again ?n ?l ?a ?h] =>
        destruct (harvest_again_requests n l a h) as (r & d2 & -> & Hd2)
    end;
    rewrite <- ?app_assoc; eexists _, _; (split; [reflexivity|]);
    autorewrite with history; rewrite Hd1, Hd2, !enumerate1_snd;
    simpl; by rewrite ?app_nil_r.
Qed.

End HarvestFacts.

Lemma every_event_is_requested_twice_witness :
  ∃ all_artists d,
    extract_artists (E:=always_up) false
      [py "https://www.last.fm/event/123/lineup";
       py "https://www.last.fm/event/456/lineup"] []
    = (Ok all_artists, [] ++ d)
    ∧ requests_of d
      = [py "https://www.last.fm/event/123/lineup";
         py "https://www.last.fm/event/456/lineup";
         py "https://www.last.fm/event/123/lineup";
         py "https://www.last.fm/event/456/lineup"].
Proof.
  apply (every_event_is_requested_twice (E:=always_up)).
  intros h url. simpl.
  destruct (PyStr.endswith url (py "/lineup")); by eexists.
Defined.

(** C2, at an input where the code leaves the claim: a user with one event.
    [main] runs the harvesting loop and then a second loop over the same
    list, so the lineup page of the one event is requested twice and the
    half-second pause is taken twice, where the claim has each event fetched
    exactly once. *)
Theorem one_event_is_harvested_twice :
  ∃ t,
    main (U:=Latin1.tables) (E:=Sample.online) (Sample.alice 2024 2023 false) []
    = (Ok (), t)
    ∧ requests_of t
      = [py "https://www.last.fm/user/alice/events";
         py "https://www.last.fm/event/123/lineup";
         py "https://www.last.fm/event/123/lineup"]
    ∧ sleeps_of t = [1; 1 # 2; 1 # 2]%Q.
Proof. eexists. split; [by vm_compute|]. split; by vm_compute. Qed.

(** * Further properties *)

(** ** The grouped output *)

Section FormatMore.
Context {U : Unicode}.

Lemma group_letter_raises (ignore_the : bool) (artist : str) (e : exn) :
  group_letter ignore_the artist = Raise e → e = IndexError ∧ artist = [].
Proof.
  destruct artist as [|c artist].
  - by intros [= <-].
  - intros Hraise.
    destruct (group_letter_Ok ignore_the (c :: artist)) as [g Hg]; [done|].
    congruence.
Qed.

Lemma select_first_raise (test : str -> result bool) (l : list str) (x : str) :
  x ∈ l → test x = Raise IndexError →
  (∀ y e, test y = Raise e → e = IndexError) →
  select test l = Raise IndexError.
Proof.
  intros Hin Hx Honly. induction l as [|y l IH]; [by apply elem_of_nil in Hin|].
  simpl. destruct (test y) as [b|e] eqn:Hy.
  - rewrite bind_Ok. apply elem_of_cons in Hin as [->|Hin]; [congruence|].
    by rewrite IH.
  - by rewrite (Honly y e Hy).
Qed.

Lemma select_sublist (test : str -> result bool) (l r : list str) :
  select test l = Ok r → r `sublist_of` l.
Proof.
  revert r. induction l as [|x l IH]; simpl; intros r.
  - by intros [= <-].
  - destruct (test x) as [b|e]; [|done]. rewrite bind_Ok.
    destruct (select test l) as [acc|e]; [|done]. rewrite bind_Ok.
    intros [= <-]. specialize (IH acc eq_refl).
    destruct b; [by apply sublist_skip|by apply sublist_cons].
Qed.

Lemma members_or_none_lines (members : list str) (line : str) :
  line ∈ members_or_none members → line = py "(none)" ∨ line ∈ members.
Proof.
  destruct members as [|m members]; simpl; [|by right].
  intros ->%list_elem_of_singleton. by left.
Qed.

Lemma letter_sections_lines (ignore_the : bool) (l ls out lines : list str) :
  ls ⊆ letters →
  letter_sections ignore_the l ls out = Ok lines →
  ∀ line, line ∈ lines →
          line ∈ out ∨ is_heading line ∨ line = py "(none)" ∨ line ∈ l.
Proof.
  revert out. induction ls as [|letter ls IH]; intros out Hls; simpl.
  - intros [= <-] line Hline. by left.
  - destruct (artists_for_letter ignore_the l letter) as [members|e] eqn:Hm;
      [|done].
    rewrite bind_Ok. intros Hrun line Hline.
    destruct (IH _ ltac:(set_solver) Hrun line Hline) as [Hout|Hrest];
      [|by right].
    rewrite !elem_of_app in Hout. destruct Hout as [[Hout|Hhead]|Hmem].
    + by left.
    + apply list_elem_of_singleton in Hhead as ->. right. left. right.
      exists letter. split; [set_solver|done].
    + right. right. apply members_or_none_lines in Hmem as [?|Hmem]; [by left|].
      right. eapply (sublist_subseteq members l); [|done].
      by eapply select_sublist.
Qed.

Lemma group_letter_only_IndexError (ignore_the : bool) (test : str -> bool)
  (y : str) (e : exn) :
  (g ← group_letter ignore_the y; Ok (test g)) = Raise e → e = IndexError.
Proof.
  destruct (group_letter ignore_the y) as [g|e'] eqn:Hg; [done|].
  intros [= <-]. by apply group_letter_raises in Hg as [-> _].
Qed.

Lemma format_output_empty_name (sorted_artists : list str) (ignore_the : bool) :
  [] ∈ sorted_artists →
  format_output_with_headings sorted_artists ignore_the = Raise IndexError.
Proof.
  intros Hin. unfold format_output_with_headings, numbers_symbols.
  rewrite (select_first_raise _ _ [] Hin); [done|done|].
  intros y e. apply group_letter_only_IndexError.
Qed.

Lemma format_output_names_nonempty (sorted_artists lines : list str)
  (ignore_the : bool) :
  format_output_with_headings sorted_artists ignore_the = Ok lines →
  Forall (fun artist : str => artist ≠ []) sorted_artists.
Proof.
  intros Hrun. apply Forall_forall. intros x Hx ->.
  by rewrite (format_output_empty_name _ ignore_the Hx) in Hrun.
Qed.

End FormatMore.

(** X3.  The grouped formatter raises exactly when a name is empty, and then
    it raises [IndexError]: an empty name makes [artist[0]] fail in the first
    loop, and nothing else in the function can raise. *)
Theorem format_output_with_headings_raises {U : Unicode}
  (sorted_artists : list str) (ignore_the : bool) :
  ([] ∈ sorted_artists →
   format_output_with_headings sorted_artists ignore_the = Raise IndexError)
  ∧ (∀ e, format_output_with_headings sorted_artists ignore_the = Raise e →
          e = IndexError ∧ [] ∈ sorted_artists).
Proof.
  split; [apply format_output_empty_name|].
  intros e Hraise.
  destruct (decide ([] ∈ sorted_artists)) as [Hin|Hnot].
  - split; [|done].
    rewrite (format_output_empty_name _ ignore_the Hin) in Hraise.
    by injection Hraise.
  - exfalso.
    assert (Forall (fun artist : str => artist ≠ []) sorted_artists) as Hne.
    { apply Forall_forall. by intros x Hx ->. }
    unfold format_output_with_headings in Hraise.
    destruct (numbers_symbols_Ok ignore_the _ Hne) as [r Hr].
    rewrite Hr, bind_Ok in Hraise.
    destruct (letter_sections_Ok ignore_the sorted_artists letters
                ([LF ++ py "=== # (Numbers & Symbols) ==="] ++ members_or_none r)
                Hne) as [lines Hlines].
    congruence.
Qed.

Lemma format_output_with_headings_raises_witness :
  [] ∈ [py "ABBA"; []]
  ∧ format_output_with_headings (U:=Latin1.tables) [py "ABBA"; []] true
    = Raise IndexError.
Proof.
  assert ([] ∈ [py "ABBA"; []]) as Hin by (right; left).
  split; [exact Hin|].
  exact (proj1 (format_output_with_headings_raises (U:=Latin1.tables) _ true) Hin).
Defined.

(** X4.  The grouped formatter invents nothing and keeps the order it is
    given: every line of its output is a heading, the placeholder or one of
    the given names, and each bucket lists its names in the order they have
    in the input list. *)
Theorem grouped_output_lists_given_names {U : Unicode}
  (sorted_artists lines : list str) (ignore_the : bool) :
  format_output_with_headings sorted_artists ignore_the = Ok lines →
  (∀ line, line ∈ lines →
           is_heading line ∨ line = py "(none)" ∨ line ∈ sorted_artists)
  ∧ (∃ members, numbers_symbols ignore_the sorted_artists = Ok members
                ∧ members `sublist_of` sorted_artists)
  ∧ (∀ letter, letter ∈ letters →
               ∃ members,
                 artists_for_letter ignore_the sorted_artists letter = Ok members
                 ∧ members `sublist_of` sorted_artists).
Proof.
  intros Hrun.
  pose proof (format_output_names_nonempty _ _ _ Hrun) as Hne.
  unfold format_output_with_headings in Hrun.
  destruct (numbers_symbols ignore_the sorted_artists) as [nums|e] eqn:Hnums;
    [|done].
  rewrite bind_Ok in Hrun. split; [|split].
  - intros line Hline.
    destruct (letter_sections_lines _ _ _ _ _ ltac:(done) Hrun line Hline)
      as [Hout|?]; [|done].
    rewrite elem_of_app in Hout. destruct Hout as [Hhead|Hmem].
    + apply list_elem_of_singleton in Hhead as ->. left. by left.
    + right. apply members_or_none_lines in Hmem as [?|Hmem]; [by left|].
      right. eapply (sublist_subseteq nums sorted_artists); [|done].
      by eapply select_sublist.
  - exists nums. split; [done|]. by eapply select_sublist.
  - intros letter _.
    destruct (artists_for_letter_Ok ignore_the sorted_artists letter Hne)
      as [members Hm].
    exists members. split; [done|]. by eapply select_sublist.
Qed.

Lemma grouped_output_lists_given_names_witness :
  ∃ lines,
    format_output_with_headings (U:=Latin1.tables) [py "123 Band"; py "ABBA"] false
    = Ok lines
    ∧ ∀ line, line ∈ lines →
              is_heading line ∨ line = py "(none)"
              ∨ line ∈ [py "123 Band"; py "ABBA"].
Proof.
  eexists.
  refine ((fun Hrun =>
             conj Hrun
               (proj1 (grouped_output_lists_given_names (U:=Latin1.tables)
                         _ _ false Hrun))) _).
  vm_compute. reflexivity.
Defined.

(** ** URL variants *)

Section UrlMore.

Lemma split_at_sep (c : N) (base rest : str) :
  c ∉ base → PyStr.split c (base ++ c :: rest) = base :: PyStr.split c rest.
Proof.
  induction base as [|x base IH]; simpl.
  - by rewrite N.eqb_refl.
  - rewrite not_elem_of_cons. intros [Hne Hbase].
    destruct (N.eqb_spec x c); [congruence|]. by rewrite IH.
Qed.

Lemma drop_query_strips (base query : str) :
  63%N ∉ base → drop_query (base ++ 63%N :: query) = base.
Proof. intros Hbase. unfold drop_query. by rewrite split_at_sep. Qed.

(** A string that ends in one known suffix ends in no other. *)
Lemma suffixes_exclusive (s s' w : str) :
  s ∈ suffixes → s' ∈ suffixes → s ≠ s' →
  PyStr.endswith (w ++ s) s' = false.
Proof.
  intros Hs Hs' Hne.
  assert (¬ s' `suffix_of` s ∧ ¬ s `suffix_of` s') as [Hl Hr].
  { unfold suffixes in Hs, Hs'.
    repeat (apply elem_of_cons in Hs as [->|Hs]);
      try (by apply elem_of_nil in Hs);
      repeat (apply elem_of_cons in Hs' as [->|Hs']);
      try (by apply elem_of_nil in Hs'); try done;
      split; apply (bool_decide_unpack _); by vm_compute. }
  apply bool_decide_eq_false. intros Hsuf.
  destruct (suffix_weak_total s' s (w ++ s) Hsuf) as [H|H];
    [by apply suffix_app_r|done|done].
Qed.

Lemma endswith_app (w s : str) : PyStr.endswith (w ++ s) s = true.
Proof. apply bool_decide_eq_true. by apply suffix_app_r. Qed.

Lemma slice_to_neg_app (w s : str) : PyStr.slice_to_neg (w ++ s) (length s) = w.
Proof.
  unfold PyStr.slice_to_neg. apply take_app_length'. rewrite length_app. lia.
Qed.

(** One pass over the suffixes leaves a string that ends in none of them
    as it is. *)
Lemma strip_suffixes_none (base : str) :
  Forall (fun s => PyStr.endswith base s = false) suffixes →
  strip_suffixes base = base.
Proof.
  unfold strip_suffixes. generalize suffixes. intros l Hl.
  induction Hl as [|s l Hs _ IH]; simpl; [done|]. by rewrite Hs.
Qed.

Lemma strip_suffixes_one (base s : str) :
  Forall (fun s => PyStr.endswith base s = false) suffixes →
  s ∈ suffixes → strip_suffixes (base ++ s) = base.
Proof.
  intros Hbase Hs.
  assert (Hnone := Hbase). unfold suffixes in Hbase.
  apply Forall_cons in Hbase as [Hb1 Hbase].
  apply Forall_cons in Hbase as [Hb2 Hbase].
  apply Forall_cons in Hbase as [Hb3 Hbase].
  apply Forall_cons in Hbase as [Hb4 _].
  assert (Hs' := Hs). unfold suffixes in Hs'.
  unfold strip_suffixes, suffixes. cbn [foldl].
  repeat (apply elem_of_cons in Hs' as [->|Hs']);
    [| | | |by apply elem_of_nil in Hs'];
    rewrite ?(suffixes_exclusive _ _ base) by
      (done || (unfold suffixes; repeat constructor) || (intros [=]));
    rewrite endswith_app, slice_to_neg_app;
    rewrite ?Hb1, ?Hb2, ?Hb3, ?Hb4; reflexivity.
Qed.

End UrlMore.

(** X5.  The links to one event have one canonical URL.  For a base URL
    that holds no question mark and ends in none of the four known paths,
    the base itself, the base followed by any one of the four paths, and any
    of these followed by a query string all canonicalise to the base
    followed by [/lineup]. *)
Theorem event_link_variants_agree (base query : str) :
  63%N ∉ base →
  Forall (fun s => PyStr.endswith base s = false) suffixes →
  canonical_url base = base ++ py "/lineup"
  ∧ canonical_url (base ++ 63%N :: query) = base ++ py "/lineup"
  ∧ (∀ s, s ∈ suffixes →
          canonical_url (base ++ s) = base ++ py "/lineup"
          ∧ canonical_url ((base ++ s) ++ 63%N :: query) = base ++ py "/lineup").
Proof.
  intros Hq Hbase. split; [|split].
  - by rewrite canonical_url_eq, drop_query_id, strip_suffixes_none.
  - by rewrite canonical_url_eq, drop_query_strips, strip_suffixes_none.
  - intros s Hs.
    assert (63%N ∉ base ++ s) as Hqs.
    { rewrite not_elem_of_app. split; [done|]. unfold suffixes in Hs.
      repeat (apply elem_of_cons in Hs as [->|Hs]);
        [| | | |by apply elem_of_nil in Hs];
        apply (bool_decide_unpack _); by vm_compute. }
    split.
    + by rewrite canonical_url_eq, drop_query_id, strip_suffixes_one.
    + by rewrite canonical_url_eq, drop_query_strips, strip_suffixes_one.
Qed.

Lemma event_link_variants_agree_witness :
  canonical_url (py "https://www.last.fm/event/123/going?tab=x")
  = py "https://www.last.fm/event/123" ++ py "/lineup".
Proof.
  assert (63%N ∉ py "https://www.last.fm/event/123") as Hq
    by (apply (bool_decide_unpack _); vm_compute; exact I).
  assert (Forall (fun s => PyStr.endswith (py "https://www.last.fm/event/123") s
                           = false) suffixes) as Hbase
    by (repeat constructor).
  assert (py "/going" ∈ suffixes) as Hs by (right; left).
  exact (proj2 (proj2 (proj2 (event_link_variants_agree
                                (py "https://www.last.fm/event/123")
                                (py "tab=x") Hq Hbase))
                  (py "/going") Hs)).
Defined.

(** ** The extractor on a page that answers *)

Lemma network_view_stdout (out : list event) :
  Forall is_stdout out → network_view out = [].
Proof.
  induction 1 as [|e out He _ IH]; [done|]. by destruct e.
Qed.

Lemma stdout_not_stderr (out : list event) :
  Forall is_stdout out → Forall (fun e => ¬ is_stderr e) out.
Proof.
  intros Hout. eapply Forall_impl; [exact Hout|].
  intros e He Herr. by destruct e.
Qed.

Section PageOk.
Context {U : Unicode} {E : Env}.
Variable join : str -> str.
Hypothesis urljoin_is : ∀ href, urljoin BASE_URL href = Ok (join href).

Lemma hrefs_of_cons (link : node) (links : list node) (h : str) :
  get_href link = Ok h → hrefs_of (link :: links) = h :: hrefs_of links.
Proof.
  destruct link as [name a children|text]; [|done]. simpl.
  unfold hrefs_of. simpl. by destruct (attr_href a); intros [= ->].
Qed.

Lemma scan_links_ok (verbose : bool) (event_links : list node)
  (event_urls : list str) (t : list event) :
  Forall (fun link => ∃ h, get_href link = Ok h) event_links →
  ∃ d,
    scan_links verbose event_links event_urls t
    = (Ok (foldl append_new event_urls
             (canonical_url ∘ join
                <$> filter (fun href => PyStr.contains href (py "/event/") = true)
                           (hrefs_of event_links))),
       t ++ d)
    ∧ Forall is_stdout d.
Proof.
  intros Hlinks. revert event_urls t.
  induction Hlinks as [|link rest [h Hh] _ IH]; intros event_urls t.
  - exists []. by rewrite app_nil_r.
  - rewrite scan_links_unfold, Hh, (hrefs_of_cons _ _ _ Hh), filter_cons.
    unfold mbind, M_bind, lift, when, print, emit, mret, M_ret.
    destruct (PyStr.contains h (py "/event/")) eqn:Hevent.
    + rewrite decide_True by done. rewrite urljoin_is, fmap_cons.
      cbn [foldl]. unfold compose at 1.
      destruct verbose; cbn beta iota;
        match goal with
        | |- context [scan_links ?v rest ?u ?t1] =>
            destruct (IH u t1) as (d & -> & Hd)
        end.
      * exists (Stdout ((py "    Found event link: " ++ h) ++ LF) :: d).
        split; [|by constructor].
        rewrite <- (app_assoc (A:=event)). reflexivity.
      * exists d. split; [reflexivity|done].
    + rewrite decide_False by (by intros ?). apply IH.
Qed.

(** A listing page that answers 200 at the first request: one request, and
    the list is built from its event links. *)
Lemma get_event_urls_from_page_ok (url : str) (verbose : bool) (t : list event) :
  (∀ h, ∃ soup, requests_get h url = Response 200 soup) →
  ∃ soup h d0 d1,
    requests_get h url = Response 200 soup
    ∧ get_event_urls_from_page url verbose t
      = (Ok (first_seen (canonical_url ∘ join <$> event_hrefs soup)),
         t ++ d0 ++ Get url :: d1)
    ∧ Forall is_stdout d0 ∧ Forall is_stdout d1.
Proof.
  intros Hok. unfold get_event_urls_from_page.
  change (seq 0 max_retries) with [0; 1; 2]. rewrite event_urls_attempts_unfold.
  unfold mbind, M_bind, when, http_get, print, emit, mret, M_ret.
  destruct verbose; cbn beta iota;
    match goal with
    | |- context [requests_get ?h url] =>
        destruct (Hok h) as [soup Hreply]; rewrite Hreply;
        exists soup, h
    end;
    cbn [Z.eqb Pos.eqb]; unfold scan_page, mbind, M_bind, when, print, emit,
      mret, M_ret; cbn beta iota;
    match goal with
    | |- context [scan_links ?v ?l ?u ?h] =>
        destruct (scan_links_ok v l u h (event_links_of_href soup))
          as (d & -> & Hd)
    end.
  - eexists [_], (_ :: _ :: d ++ [_]). split; [done|].
    unfold first_seen, event_hrefs. split.
    + rewrite <- !(app_assoc (A:=event)). reflexivity.
    + split; [by repeat constructor|]. do 2 (constructor; [done|]).
      apply Forall_app. split; [done|]. by repeat constructor.
  - exists [], d. split; [done|]. unfold first_seen, event_hrefs.
    split; [|done]. by rewrite <- !(app_assoc (A:=event)).
Qed.

End PageOk.



(** ** The lineup fetcher on any replies *)

Section StripFacts.

Lemma lstrip_head (s : str) (c : N) :
  head (PyStr.lstrip s) = Some c → PyStr.isspace c = false.
Proof.
  induction s as [|c' s IH]; simpl; [done|].
  destruct (PyStr.isspace c') eqn:Hc'; [done|]. by intros [= <-].
Qed.

Lemma lstrip_suffix (s : str) : PyStr.lstrip s `suffix_of` s.
Proof.
  induction s as [|c s IH]; simpl; [done|].
  destruct (PyStr.isspace c); [by apply suffix_cons_r|done].
Qed.

Lemma last_suffix (s1 s2 : str) (c : N) :
  s1 `suffix_of` s2 → last s1 = Some c → last s2 = Some c.
Proof. intros [k ->] Hc. by rewrite last_app, Hc. Qed.

Lemma strip_trimmed (s : str) : trimmed (PyStr.strip s).
Proof.
  unfold trimmed, PyStr.strip. split; intros c.
  - rewrite head_reverse. intros Hc.
    apply (last_suffix _ _ _ (lstrip_suffix _)) in Hc.
    rewrite last_reverse in Hc. by apply lstrip_head in Hc.
  - rewrite last_reverse. apply lstrip_head.
Qed.

Lemma concat_trimmed (l : list str) :
  Forall (fun s => s ≠ [] ∧ trimmed s) l → trimmed (concat l).
Proof.
  induction 1 as [|s l [Hs [Hhead Hlast]] Hl [IHhead IHlast]]; [done|].
  simpl. split; intros c.
  - destruct s as [|c' s]; [done|]. apply Hhead.
  - rewrite last_app. destruct l as [|s' l].
    + simpl. apply Hlast.
    + destruct (last (concat (s' :: l))) as [c'|] eqn:Hc'; [apply IHlast|].
      apply last_None in Hc'. apply Forall_cons_1 in Hl as [[Hs' _] _].
      simpl in Hc'. by apply app_eq_nil in Hc' as [? _].
Qed.

Lemma get_text_trimmed (n : node) : trimmed (get_text n).
Proof.
  unfold get_text. apply concat_trimmed, Forall_forall.
  intros s [Hs Hin]%list_elem_of_filter. split.
  - intros ->. done.
  - apply list_elem_of_fmap in Hin as (s' & -> & _). apply strip_trimmed.
Qed.

Lemma names_of_trimmed (links : list node) (name : str) :
  name ∈ names_of links → name ≠ [] ∧ trimmed name.
Proof.
  unfold names_of. rewrite elem_of_list_to_set, list_elem_of_filter.
  intros [Hname Hin]. split; [by intros ->|].
  apply list_elem_of_fmap in Hin as (link & -> & _). apply get_text_trimmed.
Qed.

Lemma scan_lineup_trimmed (soup : node) (artists : gset str) :
  (∀ name, name ∈ artists → name ≠ [] ∧ trimmed name) →
  ∀ name, name ∈ scan_lineup soup artists → name ≠ [] ∧ trimmed name.
Proof.
  intros Hartists name. rewrite scan_lineup_union, !elem_of_union.
  intros [[[?|?]|?]|?]; [by apply Hartists|by eapply names_of_trimmed..].
Qed.

End StripFacts.

Section LineupFetch.
Context {E : Env}.

Lemma artists_attempts_returns (event_url : str) (verbose : bool)
  (attempts : list nat) (artists : gset str) (t : list event) :
  ∃ r d n,
    artists_attempts event_url verbose attempts artists t = (Ok r, t ++ d)
    ∧ (r = artists ∨ ∃ soup, r = scan_lineup soup artists)
    ∧ requests_of d = replicate n event_url
    ∧ n ≤ length attempts ∧ (attempts ≠ [] → 1 ≤ n).
Proof.
  revert t. induction attempts as [|attempt rest IH]; intros t.
  - exists artists, [], 0. rewrite app_nil_r. repeat split; [by left|done..].
  - rewrite artists_attempts_unfold.
    unfold mbind, M_bind, when, http_get, print, eprint, sleep, emit, mret, M_ret.
    destruct (requests_get t event_url) as [status_code content|e repr];
      [destruct (status_code =? 200)%Z|];
      destruct verbose, (attempt =? max_retries - 1),
        (attempt <? max_retries - 1); cbn [orb andb];
      try destruct (is_empty_set _); cbn beta iota;
      try match goal with
          | |- context [artists_attempts _ _ _ _ ?h] =>
              destruct (IH h) as (r & d & n & -> & Hr & Hd & Hn & _)
          end;
      rewrite <- ?(app_assoc (A:=event));
      first [ eexists _, _, (S n); split; [reflexivity|];
              split; [exact Hr|];
              split; [autorewrite with history; by rewrite Hd|];
              simpl; split; [lia|intros _; lia]
            | eexists _, _, 1; split; [reflexivity|];
              split; [right; by eexists|];
              split; [reflexivity|]; simpl; split; [lia|done] ].
Qed.

End LineupFetch.

(** X7.  Whatever the replies, the lineup fetcher returns a set and raises
    nothing, after at least one and at most three requests, all for its URL;
    and no name of the set is empty or begins or ends with whitespace. *)
Theorem lineup_fetch_returns_trimmed_names {E : Env}
  (event_url : str) (verbose : bool) (t : list event) :
  ∃ artists d n,
    get_artists_from_event event_url verbose t = (Ok artists, t ++ d)
    ∧ requests_of d = replicate n event_url
    ∧ 1 ≤ n ≤ max_retries
    ∧ (∀ name, name ∈ artists → name ≠ [] ∧ trimmed name).
Proof.
  unfold get_artists_from_event.
  destruct (artists_attempts_returns event_url verbose (seq 0 max_retries) ∅ t)
    as (r & d & n & Hrun & Hr & Hd & Hn & Hn').
  exists r, d, n. split; [done|]. split; [done|]. split.
  - split; [by apply Hn'|]. by rewrite length_seq in Hn.
  - assert (∀ name : str, name ∈ (∅ : gset str) → name ≠ [] ∧ trimmed name)
      as Hempty by (intros name Hname; by apply not_elem_of_empty in Hname).
    destruct Hr as [->|[soup ->]]; [done|].
    by apply scan_lineup_trimmed.
Qed.

(** ** A lineup page that answers after failed attempts *)

Lemma requests_of_network_view (t : list event) :
  requests_of (network_view t) = requests_of t.
Proof.
  induction t as [|e t IH]; [done|]. unfold network_view in *.
  destruct e; simpl; rewrite ?filter_cons; simpl; by rewrite ?IH.
Qed.

Section LineupRetry.
Context {E : Env}.

(** A failed attempt that is not the last: a request and a pause of five
    seconds, and nothing else unless [verbose] is set. *)
Lemma artists_attempt_retried (event_url : str) (verbose : bool)
  (attempt : nat) (rest : list nat) (artists : gset str) (t : list event) :
  failed (requests_get t event_url) → attempt < max_retries - 1 →
  ∃ d,
    artists_attempts event_url verbose (attempt :: rest) artists t
    = artists_attempts event_url verbose rest artists (t ++ d)
    ∧ network_view d = [Get event_url; Sleep 5]
    ∧ (verbose = false → d = [Get event_url; Sleep 5]).
Proof.
  intros Hfail Hattempt. rewrite artists_attempts_unfold.
  unfold mbind, M_bind, when, http_get, print, eprint, sleep, emit, mret, M_ret.
  assert ((attempt =? max_retries - 1) = false) as ->
    by (apply Nat.eqb_neq; lia).
  assert ((attempt <? max_retries - 1) = true) as -> by (by apply Nat.ltb_lt).
  destruct (requests_get t event_url) as [status_code content|e repr].
  - simpl in Hfail. apply Z.eqb_neq in Hfail. rewrite Hfail.
    destruct verbose; simpl; rewrite <- ?(app_assoc (A:=event)); eexists;
      (split; [reflexivity|]); (split; [reflexivity|done]).
  - destruct verbose; simpl; rewrite <- ?(app_assoc (A:=event)); eexists;
      (split; [reflexivity|]); (split; [reflexivity|done]).
Qed.

(** An attempt that is answered with status 200 ends the loop. *)
Lemma artists_attempt_ok (event_url : str) (verbose : bool)
  (attempt : nat) (rest : list nat) (artists : gset str) (t : list event)
  (soup : node) :
  requests_get t event_url = Response 200 soup →
  ∃ d,
    artists_attempts event_url verbose (attempt :: rest) artists t
    = (Ok (scan_lineup soup artists), t ++ Get event_url :: d)
    ∧ Forall is_stdout d ∧ (verbose = false → d = []).
Proof.
  intros Hreply. rewrite artists_attempts_unfold.
  unfold mbind, M_bind, when, http_get, print, emit, mret, M_ret.
  rewrite Hreply. simpl.
  destruct verbose; simpl; [destruct (is_empty_set _)|].
  - eexists [_]. rewrite <- app_assoc. split; [done|].
    split; [by repeat constructor|done].
  - by exists [].
  - by exists [].
Qed.

End LineupRetry.

(** X8.  When the first [k] requests for a lineup page fail, with [k] below
    three, and the next one is answered with status 200, the lineup fetcher
    returns the artists of that page: it has requested the page [k + 1]
    times with a pause of five seconds after each failed request, and it
    has written nothing at all, on either stream, unless [verbose] is set. *)
Theorem lineup_fetch_recovers {E : Env} (event_url : str) (verbose : bool)
  (t : list event) (soup : node) (k : nat) :
  k < max_retries →
  (∀ d, length (requests_of d) < k →
        failed (requests_get (t ++ d) event_url)) →
  (∀ d, length (requests_of d) = k →
        requests_get (t ++ d) event_url = Response 200 soup) →
  ∃ d,
    get_artists_from_event event_url verbose t
    = (Ok (scan_lineup soup ∅), t ++ d)
    ∧ network_view d
      = concat (replicate k [Get event_url; Sleep 5]) ++ [Get event_url]
    ∧ (verbose = false → d = network_view d).
Proof.
  intros Hk Hfail Hok. unfold get_artists_from_event.
  change (seq 0 max_retries) with [0; 1; 2].
  assert (∀ d, network_view d = [Get event_url; Sleep 5] →
               length (requests_of d) = 1) as Hone.
  { intros d Hd. by rewrite <- requests_of_network_view, Hd. }
  assert (∀ d : list event, Forall is_stdout d →
            network_view (Get event_url :: d) = [Get event_url]) as Hlast.
  { intros d Hd. change (Get event_url :: d) with ([Get event_url] ++ d).
    by rewrite network_view_app, (network_view_stdout d Hd). }
  destruct k as [|[|[|k]]]; [| | |unfold max_retries in Hk; lia].
  - destruct (artists_attempt_ok event_url verbose 0 [1; 2] ∅ t soup)
      as (d & -> & Hd & Hquiet).
    { specialize (Hok [] eq_refl). by rewrite app_nil_r in Hok. }
    eexists. split; [reflexivity|]. split; [by apply Hlast|].
    intros Hv. by rewrite (Hquiet Hv).
  - destruct (artists_attempt_retried event_url verbose 0 [1; 2] ∅ t)
      as (d0 & -> & Hn0 & Hq0).
    { specialize (Hfail [] ltac:(simpl; lia)). by rewrite app_nil_r in Hfail. }
    { unfold max_retries. lia. }
    destruct (artists_attempt_ok event_url verbose 1 [2] ∅ (t ++ d0) soup)
      as (d & -> & Hd & Hquiet).
    { apply Hok. by apply Hone. }
    exists (d0 ++ Get event_url :: d). split; [by rewrite <- app_assoc|].
    split; [by rewrite network_view_app, Hn0, (Hlast d Hd)|].
    intros Hv. by rewrite (Hquiet Hv), (Hq0 Hv).
  - destruct (artists_attempt_retried event_url verbose 0 [1; 2] ∅ t)
      as (d0 & -> & Hn0 & Hq0).
    { specialize (Hfail [] ltac:(simpl; lia)). by rewrite app_nil_r in Hfail. }
    { unfold max_retries. lia. }
    destruct (artists_attempt_retried event_url verbose 1 [2] ∅ (t ++ d0))
      as (d1 & -> & Hn1 & Hq1).
    { apply Hfail. rewrite (Hone d0 Hn0). lia. }
    { unfold max_retries. lia. }
    destruct (artists_attempt_ok event_url verbose 2 [] ∅ ((t ++ d0) ++ d1) soup)
      as (d & -> & Hd & Hquiet).
    { rewrite <- app_assoc. apply Hok.
      by rewrite requests_of_app, length_app, (Hone d0 Hn0), (Hone d1 Hn1). }
    exists (d0 ++ d1 ++ Get event_url :: d).
    split; [by rewrite <- !app_assoc|].
    split; [by rewrite !network_view_app, Hn0, Hn1, (Hlast d Hd)|].
    intros Hv. by rewrite (Hquiet Hv), (Hq0 Hv), (Hq1 Hv).
Qed.

Lemma lineup_fetch_recovers_witness :
  ∃ d,
    get_artists_from_event (E:=recovering)
      (py "https://www.last.fm/event/123/lineup") false []
    = (Ok (scan_lineup Sample.lineup ∅), [] ++ d)
    ∧ d = [Get (py "https://www.last.fm/event/123/lineup"); Sleep 5;
           Get (py "https://www.last.fm/event/123/lineup"); Sleep 5;
           Get (py "https://www.last.fm/event/123/lineup")].
Proof.
  destruct (lineup_fetch_recovers (E:=recovering)
              (py "https://www.last.fm/event/123/lineup") false []
              Sample.lineup 2)
    as (d & Hrun & Hview & Hquiet).
  - unfold max_retries. lia.
  - intros d Hd. simpl. unfold down_twice.
    destruct (Nat.ltb_spec (length (requests_of d)) 2); [simpl; lia|lia].
  - intros d Hd. simpl. unfold down_twice. by rewrite Hd.
  - exists d. split; [exact Hrun|]. rewrite (Hquiet eq_refl). exact Hview.
Defined.

(** ** The crawl on a site that answers *)

Lemma fetch_view (url : str) (d0 d1 : list event) :
  Forall is_stdout d0 → Forall is_stdout d1 →
  network_view (d0 ++ Get url :: d1) = [Get url]
  ∧ Forall (fun e => ¬ is_stderr e) (d0 ++ Get url :: d1).
Proof.
  intros Hd0 Hd1. split.
  - change (Get url :: d1) with ([Get url] ++ d1).
    by rewrite !network_view_app, (network_view_stdout d0 Hd0),
      (network_view_stdout d1 Hd1).
  - apply Forall_app. split; [by apply stdout_not_stderr|].
    constructor; [by intros ?|by apply stdout_not_stderr].
Qed.

Section CrawlOk.
Context {U : Unicode} {E : Env}.
Variable join : str -> str.
Hypothesis urljoin_is : ∀ href, urljoin BASE_URL href = Ok (join href).
Hypothesis always_ok : ∀ h url, ∃ soup, requests_get h url = Response 200 soup.

Lemma page_fetch_quiet (url : str) (verbose : bool) (t : list event) :
  ∃ r d,
    get_event_urls_from_page url verbose t = (Ok r, t ++ d)
    ∧ network_view d = [Get url]
    ∧ Forall (fun e => ¬ is_stderr e) d.
Proof.
  destruct (get_event_urls_from_page_ok join urljoin_is url verbose t)
    as (soup & h & d0 & d1 & _ & Hrun & Hd0 & Hd1).
  { intros h. apply always_ok. }
  eexists _, _. split; [exact Hrun|]. by apply fetch_view.
Qed.

Lemma year_pages_history (username : str) (verbose : bool) (years : list Z)
  (all_event_urls : list str) (t : list event) :
  ∃ urls d,
    year_pages username verbose years all_event_urls t = (Ok urls, t ++ d)
    ∧ network_view d
      = (year_url username <$> years) ≫= (fun page => [Get page; Sleep 1])
    ∧ Forall (fun e => ¬ is_stderr e) d.
Proof.
  revert all_event_urls t. induction years as [|year rest IH];
    intros all_event_urls t.
  - exists all_event_urls, []. by rewrite app_nil_r.
  - rewrite year_pages_unfold.
    unfold mbind at 1 2 3 4, M_bind, print, sleep, emit.
    match goal with
    | |- context [get_event_urls_from_page ?u ?v ?h] =>
        destruct (page_fetch_quiet u v h) as (page & d & -> & Hview & Hquiet)
    end.
    cbn beta iota.
    match goal with
    | |- context [year_pages _ _ rest ?a ?h] =>
        destruct (IH a h) as (urls & d' & -> & Hview' & Hquiet')
    end.
    rewrite <- !(app_assoc (A:=event)). eexists _, _. split; [reflexivity|].
    split.
    + rewrite fmap_cons, bind_cons, !network_view_app, Hview, Hview'.
      reflexivity.
    + repeat first [apply Forall_app; split | apply Forall_cons; split];
        try done; by intros ?.
Qed.

End CrawlOk.

(** X9.  On a site that answers every request with status 200, the crawl
    requests the main listing page and then the page of each year from
    [start_year] to [end_year], each exactly once and each followed by a
    pause of one second, the last one too; it makes no other request, writes
    nothing to the error stream and returns a list.  The number of pages is
    one more than the number of years, so one when [end_year] is below
    [start_year]. *)
Theorem crawl_requests_each_page_once {U : Unicode} {E : Env}
  (join : str -> str) (username : str) (start_year end_year : Z)
  (verbose : bool) (t : list event) :
  (∀ href, urljoin BASE_URL href = Ok (join href)) →
  (∀ h url, ∃ soup, requests_get h url = Response 200 soup) →
  ∃ urls d,
    get_all_event_urls username start_year end_year verbose t
    = (Ok urls, t ++ d)
    ∧ network_view d
      = listing_pages username start_year end_year
        ≫= (fun page => [Get page; Sleep 1])
    ∧ length (listing_pages username start_year end_year)
      = S (Z.to_nat (end_year + 1 - start_year))
    ∧ Forall (fun e => ¬ is_stderr e) d.
Proof.
  intros Hjoin Hok. unfold get_all_event_urls.
  unfold mbind at 1 2 3 4, M_bind, print, sleep, emit.
  match goal with
  | |- context [get_event_urls_from_page ?u ?v ?h] =>
      destruct (page_fetch_quiet join Hjoin Hok u v h)
        as (page & d & -> & Hview & Hquiet)
  end.
  cbn beta iota.
  match goal with
  | |- context [year_pages _ _ ?ys ?a ?h] =>
      destruct (year_pages_history join Hjoin Hok username verbose ys a h)
        as (urls & d' & -> & Hview' & Hquiet')
  end.
  rewrite <- !(app_assoc (A:=event)). eexists _, _. split; [reflexivity|].
  split; [|split].
  - unfold listing_pages.
    rewrite bind_cons, !network_view_app, Hview, Hview'. reflexivity.
  - unfold listing_pages, range. simpl. by rewrite !length_fmap, length_seq.
  - repeat first [apply Forall_app; split | apply Forall_cons; split];
      try done; by intros ?.
Qed.

Lemma crawl_requests_each_page_once_witness :
  ∃ urls d,
    get_all_event_urls (U:=Latin1.tables) (E:=always_up)
      (py "alice") 2023 2024 false [] = (Ok urls, [] ++ d)
    ∧ network_view d
      = [Get (py "https://www.last.fm/user/alice/events"); Sleep 1;
         Get (py "https://www.last.fm/user/alice/events/2023"); Sleep 1;
         Get (py "https://www.last.fm/user/alice/events/2024"); Sleep 1].
Proof.
  destruct (crawl_requests_each_page_once (U:=Latin1.tables) (E:=always_up)
              (fun href => if PyStr.startswith href (py "/")
                           then BASE_URL ++ href else href)
              (py "alice") 2023 2024 false [])
    as (urls & d & Hrun & Hview & _).
  - intros href. simpl. unfold Sample.join_path.
    by destruct (PyStr.startswith href (py "/")).
  - intros h url. simpl.
    destruct (PyStr.endswith url (py "/lineup")); by eexists.
  - exists urls, d. split; [exact Hrun|]. rewrite Hview.
    vm_compute. reflexivity.
Defined.

(** ** How a run of [main] ends *)

Section MainEnds.
Context {U : Unicode} {E : Env}.

Lemma for_each_returns {A} (l : list A) (body : A -> M unit) (t : list event) :
  (∀ x h, ∃ h', body x h = (Ok (), h')) →
  ∃ t', for_each l body t = (Ok (), t').
Proof.
  intros Hbody. revert t. induction l as [|x l IH]; intros t; simpl.
  - by eexists.
  - destruct (Hbody x t) as [h' Hx]. rewrite (bind_ok _ _ _ _ _ Hx). apply IH.
Qed.

Lemma print_run (s : str) (t : list event) :
  print s t = (Ok (), t ++ [Stdout (s ++ LF)]).
Proof. done. Qed.

Lemma print_returns (s : str) (h : list event) :
  ∃ h', print s h = (Ok (), h').
Proof. by eexists. Qed.

Lemma artist_names_empty : artist_names ∅.
Proof. intros name Hname. by apply not_elem_of_empty in Hname. Qed.

Lemma artist_names_union (a b : gset str) :
  artist_names a → artist_names b → artist_names (a ∪ b).
Proof.
  intros Ha Hb name [?|?]%elem_of_union; [by apply Ha|by apply Hb].
Qed.

Lemma get_artists_from_event_names (event_url : str) (verbose : bool)
  (t : list event) :
  ∃ artists t',
    get_artists_from_event event_url verbose t = (Ok artists, t')
    ∧ artist_names artists.
Proof.
  destruct (artists_attempts_returns event_url verbose (seq 0 max_retries) ∅ t)
    as (r & d & n & Hrun & Hr & _).
  exists r, (t ++ d). split; [done|].
  destruct Hr as [->|[soup ->]]; [apply artist_names_empty|].
  exact (scan_lineup_trimmed soup ∅ artist_names_empty).
Qed.

Lemma harvest_returns (verbose : bool) (total : nat)
  (items : list (nat * str)) (all_artists : gset str) (failed_count : nat)
  (t : list event) :
  artist_names all_artists →
  ∃ all_artists' failed_count' t',
    harvest verbose total items all_artists failed_count t
    = (Ok (all_artists', failed_count'), t')
    ∧ artist_names all_artists'.
Proof.
  revert all_artists failed_count t.
  induction items as [|[i event_url] rest IH];
    intros all_artists failed_count t Hall.
  - by eexists _, _, _.
  - rewrite harvest_unfold.
    unfold mbind, M_bind, when, print, print_end, sleep, emit, mret, M_ret.
    destruct verbose; cbn [negb];
      match goal with
      | |- context [get_artists_from_event ?u ?v ?h] =>
          destruct (get_artists_from_event_names u v h)
            as (artists & t' & -> & Hartists)
      end;
      destruct (is_empty_set _); cbn [negb]; cbn beta iota;
      apply IH; try done; by apply artist_names_union.
Qed.

Lemma harvest_again_returns (total : nat) (items : list (nat * str))
  (all_artists : gset str) (t : list event) :
  artist_names all_artists →
  ∃ all_artists' t',
    harvest_again total items all_artists t = (Ok all_artists', t')
    ∧ artist_names all_artists'.
Proof.
  revert all_artists t.
  induction items as [|[i event_url] rest IH]; intros all_artists t Hall.
  - by eexists _, _.
  - rewrite harvest_again_unfold.
    unfold mbind, M_bind, print_end, sleep, emit.
    match goal with
    | |- context [get_artists_from_event ?u ?v ?h] =>
        destruct (get_artists_from_event_names u v h)
          as (artists & t' & -> & Hartists)
    end.
    cbn beta iota. apply IH. by apply artist_names_union.
Qed.

(** The artist stage returns a set, whatever the replies, and every name in
    it is non-empty and has no whitespace at either end. *)
Lemma extract_artists_returns (verbose : bool) (event_urls : list str)
  (t : list event) :
  ∃ all_artists t',
    extract_artists verbose event_urls t = (Ok all_artists, t')
    ∧ artist_names all_artists.
Proof.
  unfold extract_artists, mbind, M_bind, when, print, emit, mret, M_ret.
  match goal with
  | |- context [harvest ?v ?n ?l ?a ?f ?h] =>
      destruct (harvest_returns v n l a f h artist_names_empty)
        as (artists & failed & t1 & -> & Hartists)
  end.
  destruct verbose; cbn beta iota;
    match goal with
    | |- context [harvest_again ?n ?l ?a ?h] =>
        destruct (harvest_again_returns n l a h Hartists)
          as (r & t2 & -> & Hr)
    end; by eexists _, _.
Qed.

Lemma sort_artists_nonempty (all_artists : gset str) (ignore_the : bool) :
  artist_names all_artists →
  Forall (fun artist : str => artist ≠ []) (sort_artists all_artists ignore_the).
Proof.
  intros Hall. apply Forall_forall. intros artist Hin.
  unfold sort_artists in Hin.
  rewrite sorted_perm, set_iter_perm, elem_of_elements in Hin.
  by apply Hall.
Qed.

Lemma format_output_returns (sorted_artists : list str) (ignore_the : bool) :
  Forall (fun artist : str => artist ≠ []) sorted_artists →
  ∃ lines, format_output_with_headings sorted_artists ignore_the = Ok lines.
Proof.
  intros Hl. unfold format_output_with_headings.
  destruct (numbers_symbols_Ok ignore_the _ Hl) as [r ->].
  rewrite bind_Ok. by apply letter_sections_Ok.
Qed.

(** The output stage ends normally, or with exit status 1 when the named
    file cannot be opened. *)
Lemma write_output_ends (output : option str) (output_lines : list str)
  (t : list event) :
  ∃ r t',
    write_output output output_lines t = (r, t')
    ∧ (r = Ok ()
       ∨ (r = Raise (SystemExit 1)
          ∧ ∃ path h e, output = Some path ∧ path ≠ []
                        ∧ open_write h path = Some e)).
Proof.
  assert (∃ t', for_each output_lines print t = (Ok (), t')) as [t' Hprint]
    by (apply for_each_returns, print_returns).
  destruct output as [path|]; simpl.
  - destruct (nonempty path) eqn:Hpath.
    + destruct (open_write t path) as [e|] eqn:Hopen.
      * eexists _, _. split; [reflexivity|]. right. split; [done|].
        exists path, t, e. split; [done|]. split; [|done].
        intros ->. by vm_compute in Hpath.
      * eexists _, _. split; [reflexivity|]. by left.
    + eexists _, _. split; [exact Hprint|]. by left.
  - eexists _, _. split; [exact Hprint|]. by left.
Qed.

End MainEnds.

(** X10.  The body of [main] that follows the parsing of the command line,
    run on any parsed arguments and against any site, with a [urljoin] that
    does not raise and writes to the console that succeed, ends in one of
    three ways: normally, with exit status 0 through the early exit, or with
    exit status 1 when an output file is named and cannot be opened.  None
    of the script's own accesses fails on the way: [artist[0]] in the
    grouped formatter raises no [IndexError], because the names handed to
    it come from the lineup fetcher, which yields no empty name, and
    [link['href']] raises no [KeyError]. *)
Theorem main_ends_or_exits {U : Unicode} {E : Env} (a : args) (t : list event) :
  (∀ base href, ∃ u, urljoin base href = Ok u) →
  ∃ r t',
    main a t = (r, t')
    ∧ (r = Ok () ∨ r = Raise (SystemExit 0)
       ∨ (r = Raise (SystemExit 1)
          ∧ ∃ path h e, output a = Some path ∧ path ≠ []
                        ∧ open_write h path = Some e)).
Proof.
  intros Hjoin. unfold main.
  unfold mbind at 1 2 3 4, M_bind, print at 1 2 3, emit.
  match goal with
  | |- context [get_all_event_urls ?u ?s ?e ?v ?h] =>
      destruct (get_all_event_urls_returns Hjoin u s e v h)
        as (event_urls & t1 & ->)
  end.
  cbn beta iota.
  rewrite (bind_ok _ _ _ _ _ (print_run _ t1)).
  match goal with
  | |- context [(when (verbose a) ?m ≫= ?k) ?h] =>
      assert (∃ h', when (verbose a) m h = (Ok (), h')) as [t2 Hshow]
  end.
  { destruct (verbose a); [|by eexists]. cbn [when].
    rewrite (bind_ok _ _ _ _ _ (print_run _ _)), bind_unfold.
    match goal with
    | |- context [for_each ?l ?b ?h] =>
        destruct (for_each_returns l b h) as [h' Hh']
    end.
    { intros x h. by eexists. }
    rewrite Hh'. destruct (10 <? length event_urls); by eexists. }
  rewrite (bind_ok _ _ _ _ _ Hshow).
  case_bool_decide as Hempty.
  { rewrite bind_unfold, (bind_ok _ _ _ _ _ (print_run _ _)).
    eexists _, _. split; [reflexivity|]. right. by left. }
  rewrite bind_unfold. cbn beta iota. unfold mret at 1, M_ret at 1.
  cbn beta iota. rewrite bind_unfold.
  destruct (extract_artists_returns (verbose a) event_urls t2)
    as (all_artists & t3 & -> & Hartists).
  cbn beta iota zeta. rewrite bind_unfold.
  pose proof (sort_artists_nonempty all_artists (ignore_the a) Hartists) as Hsorted.
  destruct (letter_headings a).
  - destruct (format_output_returns _ (ignore_the a) Hsorted) as [lines Hlines].
    rewrite bind_unfold. unfold lift. rewrite Hlines. cbn beta iota.
    unfold mret, M_ret. cbn beta iota.
    destruct (write_output_ends (output a)
                ([py "Artists (" ++ PyStr.of_nat
                    (length (sort_artists all_artists (ignore_the a)))
                  ++ py " unique):"] ++ lines) t3)
      as (r & t4 & Hwrite & Hr).
    exists r, t4. split; [exact Hwrite|]. destruct Hr as [->|Hr]; tauto.
  - unfold mret, M_ret. cbn beta iota.
    match goal with
    | |- context [write_output ?o ?l ?h] =>
        destruct (write_output_ends o l h) as (r & t4 & -> & Hr)
    end.
    exists r, t4. split; [reflexivity|]. destruct Hr as [->|Hr]; tauto.
Qed.

Lemma main_ends_or_exits_witness :
  ∃ r t',
    main (U:=Latin1.tables) (E:=Sample.online) (Sample.alice 2024 2023 false) []
    = (r, t')
    ∧ (r = Ok () ∨ r = Raise (SystemExit 0)
       ∨ (r = Raise (SystemExit 1)
          ∧ ∃ path h e, output (Sample.alice 2024 2023 false) = Some path
                        ∧ path ≠ []
                        ∧ open_write (Env:=Sample.online) h path = Some e)).
Proof.
  apply (main_ends_or_exits (U:=Latin1.tables) (E:=Sample.online)).
  apply join_path_ok.
Defined.

(** ** Which links the listing extractor sees *)

Section CardLinks.

Lemma node_nested_ind (P : node -> Prop) :
  (∀ name a children, Forall P children → P (Tag name a children)) →
  (∀ text, P (NavigableString text)) →
  ∀ n, P n.
Proof.
  intros Htag Hstring. fix IH 1. intros [name a children|text].
  - apply Htag. induction children as [|c children IHchildren];
      constructor; [apply IH|apply IHchildren].
  - apply Hstring.
Qed.

Lemma elem_of_descendants (name : str) (a : attrs) (children : list node)
  (d : node) :
  d ∈ descendants (Tag name a children)
  ↔ ∃ c, c ∈ children ∧ (d = c ∨ d ∈ descendants c).
Proof.
  simpl. rewrite list_elem_of_bind. split.
  - intros (c & Hd & Hc). exists c. split; [done|].
    by apply elem_of_cons in Hd.
  - intros (c & Hc & Hd). exists c. split; [|done]. by apply elem_of_cons.
Qed.

(** What lies below a node of the page lies in the page. *)
Lemma descendants_trans (n c d : node) :
  c ∈ descendants n → d ∈ descendants c → d ∈ descendants n.
Proof.
  revert c d. induction n as [name a children IH|text] using node_nested_ind;
    intros c d Hc Hd; [|by apply elem_of_nil in Hc].
  apply elem_of_descendants in Hc as (child & Hchild & Hc).
  apply elem_of_descendants. exists child. split; [done|]. right.
  destruct Hc as [->|Hc]; [done|].
  rewrite Forall_forall in IH. by apply (IH child Hchild c d).
Qed.

Context {U : Unicode}.

(** The links found inside the cards are links of the page. *)
Lemma card_links_are_page_links (soup link : node) :
  link ∈ event_links_of soup ↔ link ∈ find_all [py "a"] None true soup.
Proof.
  unfold event_links_of. rewrite elem_of_app, list_elem_of_bind. split.
  - intros [(card & Hlink & Hcard)|Hlink]; [|done].
    unfold find_all in *.
    apply list_elem_of_filter in Hcard as [_ Hcard].
    apply list_elem_of_filter in Hlink as [Hlink Hin].
    apply list_elem_of_filter. split; [done|].
    by apply (descendants_trans soup card link).
  - by right.
Qed.

Lemma elem_of_hrefs_of (links : list node) (href : str) :
  href ∈ hrefs_of links ↔ ∃ link, link ∈ links ∧ get_href link = Ok href.
Proof.
  unfold hrefs_of. rewrite list_elem_of_omap. split.
  - intros (link & Hlink & Hhref). exists link. split; [done|].
    destruct link as [name a children|text]; [|done]. simpl.
    simpl in Hhref. by rewrite Hhref.
  - intros (link & Hlink & Hhref). exists link. split; [done|].
    destruct link as [name a children|text]; [|done]. simpl in *.
    by destruct (attr_href a) as [h|]; [injection Hhref as ->|].
Qed.

Lemma elem_of_event_hrefs (soup : node) (href : str) :
  href ∈ event_hrefs soup
  ↔ href ∈ hrefs_of (find_all [py "a"] None true soup)
    ∧ PyStr.contains href (py "/event/") = true.
Proof.
  unfold event_hrefs. rewrite list_elem_of_filter, !elem_of_hrefs_of.
  split.
  - intros [Hevent (link & Hlink & Hhref)]. split; [|done].
    exists link. split; [|done]. by apply card_links_are_page_links.
  - intros [(link & Hlink & Hhref) Hevent]. split; [done|].
    exists link. split; [|done]. by apply card_links_are_page_links.
Qed.

End CardLinks.

(** X11.  The pass over the event cards changes the order of the result
    only: on a page that answers with status 200, a URL is returned exactly
    when it is the canonical URL of some link of the whole page whose
    [href] holds [/event/], whether or not the link lies in a card. *)
Theorem card_pass_adds_no_url {U : Unicode} {E : Env}
  (join : str -> str) (url : str) (verbose : bool) (t : list event)
  (soup : node) :
  (∀ href, urljoin BASE_URL href = Ok (join href)) →
  (∀ h, requests_get h url = Response 200 soup) →
  ∃ event_urls t',
    get_event_urls_from_page url verbose t = (Ok event_urls, t')
    ∧ ∀ u, u ∈ event_urls
           ↔ ∃ href, href ∈ hrefs_of (find_all [py "a"] None true soup)
                     ∧ PyStr.contains href (py "/event/") = true
                     ∧ u = canonical_url (join href).
Proof.
  intros Hjoin Hok.
  destruct (get_event_urls_from_page_ok join Hjoin url verbose t)
    as (soup' & h & d0 & d1 & Hreply & Hrun & _).
  { intros h. by exists soup. }
  rewrite Hok in Hreply. injection Hreply as <-.
  eexists _, _. split; [exact Hrun|]. intros u.
  rewrite elem_of_first_seen, list_elem_of_fmap. unfold compose. split.
  - intros (href & -> & [Hin Hevent]%elem_of_event_hrefs). by exists href.
  - intros (href & Hin & Hevent & ->). exists href. split; [reflexivity|].
    by apply elem_of_event_hrefs.
Qed.

Lemma card_pass_adds_no_url_witness :
  ∃ event_urls t',
    get_event_urls_from_page (U:=Latin1.tables) (E:=Sample.online)
      (py "https://www.last.fm/user/alice/events") false []
    = (Ok event_urls, t')
    ∧ py "https://www.last.fm/event/123/lineup" ∈ event_urls.
Proof.
  destruct (card_pass_adds_no_url (U:=Latin1.tables) (E:=Sample.online)
              (fun href => if PyStr.startswith href (py "/")
                           then BASE_URL ++ href else href)
              (py "https://www.last.fm/user/alice/events") false []
              Sample.listing)
    as (event_urls & t' & Hrun & Hin).
  - intros href. simpl. unfold Sample.join_path.
    by destruct (PyStr.startswith href (py "/")).
  - intros h. reflexivity.
  - exists event_urls, t'. split; [exact Hrun|]. apply Hin.
    exists (py "/event/123?from=list"). split; [|split].
    + apply (bool_decide_unpack _). by vm_compute.
    + by vm_compute.
    + by vm_compute.
Defined.

(** ** The sort key on artist names *)

Section SortKey.

Lemma insert_sorted_ext {A} (key1 key2 : A -> str) (x : A) (l : list A) :
  key1 x = key2 x → Forall (fun y => key1 y = key2 y) l →
  insert_sorted key1 x l = insert_sorted key2 x l.
Proof.
  intros Hx. induction 1 as [|y l Hy _ IH]; simpl; [done|].
  by rewrite Hx, Hy, IH.
Qed.

(** The sort reads the key of the elements only. *)
Lemma sorted_ext {A} (key1 key2 : A -> str) (l : list A) :
  Forall (fun y => key1 y = key2 y) l → sorted l key1 = sorted l key2.
Proof.
  induction 1 as [|x l Hx Hl IH]; [done|]. unfold sorted in *. simpl.
  rewrite IH. apply insert_sorted_ext; [done|].
  apply Forall_forall. intros y Hy. rewrite Forall_forall in Hl. apply Hl.
  by rewrite <- (sorted_perm key2 l).
Qed.

Context {U : Unicode}.
Hypothesis lower_the :
  ∀ s, PyStr.startswith (str_lower s) (py "the ") = true → s !! 3 = Some 32%N.

(** On a name with no whitespace at its end the code's key is the
    specification's: a name that starts with the article and is trimmed
    holds more text after it. *)
Lemma sort_key_trimmed (ignore_the : bool) (name : str) :
  trimmed name → sort_key ignore_the name = spec_sort_key ignore_the name.
Proof.
  intros [_ Hlast]. unfold sort_key, spec_sort_key, PyStr.slice_from.
  destruct ignore_the; [|done]. cbn [andb].
  destruct (PyStr.startswith (str_lower name) (py "the ")) eqn:Hthe; [|done].
  apply lower_the in Hthe.
  destruct (Nat.ltb_spec 4 (length name)) as [Hlen|Hlen]; [done|].
  exfalso. assert (length name = 4) as Hfour.
  { apply lookup_lt_Some in Hthe. lia. }
  assert (last name = Some 32%N) as Hspace.
  { rewrite last_lookup, Hfour. exact Hthe. }
  by apply Hlast in Hspace.
Qed.

End SortKey.

(** The Latin-1 tables lower no character but the space to a space. *)
Lemma latin1_lower_the (s : str) :
  PyStr.startswith (Latin1.lower s) (py "the ") = true → s !! 3 = Some 32%N.
Proof.
  intros [k Hk]%bool_decide_eq_true. unfold Latin1.lower in Hk.
  destruct s as [|a [|b [|c [|d s]]]]; try done.
  injection Hk as _ _ _ Hd _. simpl. f_equal.
  unfold Latin1.lower_cp in Hd.
  destruct (_ || _)%bool eqn:Hupper; [|done].
  assert (d = 0%N) as -> by lia. done.
Qed.

(** C6.  The key of a name that has no whitespace at its end is the one the
    specification gives: the lower case of the name, or, with the option
    set and the name starting with "the " in any case, the lower case of
    what follows those four characters, of which there is some.  Every name
    the artist stage hands to the sort is such a name.  The result of
    [sort_artists] holds the artists of the set, each once; on such names it
    is in ascending order of the specification's key, and names with the
    same key keep the order in which the set yields them.  The condition on
    the case tables, that a string whose lower case starts with "the " has
    the space as its fourth character, holds of Python's: each of these
    four characters is the lower case of single characters only, and the
    space of the space alone. *)
Theorem sort_artists_stable_on_key {U : Unicode} {E : Env}
  (artists : gset str) (ignore_the : bool) :
  (∀ s, PyStr.startswith (str_lower s) (py "the ") = true →
        s !! 3 = Some 32%N) →
  (∀ name, trimmed name →
           sort_key ignore_the name = spec_sort_key ignore_the name)
  ∧ (∀ verbose event_urls t,
        ∃ all_artists t',
          extract_artists verbose event_urls t = (Ok all_artists, t')
          ∧ ∀ name, name ∈ all_artists → trimmed name)
  ∧ sort_artists artists ignore_the ≡ₚ elements artists
  ∧ ((∀ name, name ∈ artists → trimmed name) →
     sort_artists artists ignore_the
     = sorted (set_iter artists) (spec_sort_key ignore_the)
     ∧ StronglySorted (key_le (spec_sort_key ignore_the))
         (sort_artists artists ignore_the)
     ∧ (∀ k, filter (fun a => spec_sort_key ignore_the a = k)
                    (sort_artists artists ignore_the)
             = filter (fun a => spec_sort_key ignore_the a = k)
                      (set_iter artists))).
Proof.
  intros Hlower. split; [intros name; by apply sort_key_trimmed|].
  split.
  { intros verbose event_urls t.
    destruct (extract_artists_returns verbose event_urls t)
      as (all_artists & t' & Hrun & Hnames).
    exists all_artists, t'. split; [done|]. intros name Hname.
    by apply Hnames. }
  split; [unfold sort_artists; by rewrite sorted_perm, set_iter_perm|].
  intros Htrimmed.
  assert (sort_artists artists ignore_the
          = sorted (set_iter artists) (spec_sort_key ignore_the)) as Heq.
  { unfold sort_artists. apply sorted_ext, Forall_forall. intros name Hname.
    apply sort_key_trimmed; [done|]. apply Htrimmed.
    by rewrite set_iter_perm, elem_of_elements in Hname. }
  split; [exact Heq|]. rewrite Heq.
  split; [apply sorted_ordered|]. intros k. apply sorted_stable.
Qed.

Lemma sort_artists_stable_on_key_witness :
  sort_key (U:=Latin1.tables) true (py "The Beatles") = py "beatles"
  ∧ sort_artists (U:=Latin1.tables) (E:=Sample.online)
      {[py "The Beatles"; py "ABBA"; py "Zebra"; py "123 Band"]} true
    = [py "123 Band"; py "ABBA"; py "The Beatles"; py "Zebra"]
  ∧ StronglySorted (key_le (spec_sort_key (U:=Latin1.tables) true))
      (sort_artists (U:=Latin1.tables) (E:=Sample.online)
         {[py "The Beatles"; py "ABBA"; py "Zebra"; py "123 Band"]} true).
Proof.
  destruct (sort_artists_stable_on_key (U:=Latin1.tables) (E:=Sample.online)
              {[py "The Beatles"; py "ABBA"; py "Zebra"; py "123 Band"]} true
              latin1_lower_the)
    as (Hkey & _ & _ & Hsort).
  destruct Hsort as (Heq & Hsorted & _).
  { intros name Hname. rewrite !elem_of_union, !elem_of_singleton in Hname.
    destruct Hname as [[[->| ->]| ->]| ->];
      split; intros c [= <-]; reflexivity. }
  split; [|split; [|exact Hsorted]].
  - rewrite Hkey; [by vm_compute|]. split; intros c [= <-]; reflexivity.
  - rewrite Heq. by vm_compute.
Defined.
